(** * ETL pipeline: task scheduling and the persistent job registry

    A shallow embedding of [ETL_Pipeline/src/application/etl_pipeline.py].
    The module keeps three pieces of process-wide state in step: the task
    table behind [DB_MANAGER], the flag [SCHEDULER_RUNNING] and the dict
    [SCHEDULED_JOBS]; the default scheduler of the [schedule] package holds
    the jobs that actually fire.  Every endpoint is embedded as a function
    in a state-and-exception monad over these globals.

    Console output ([print]) and log records ([logger.error]) are not part
    of the modelled state. *)

From stdpp Require Import gmap strings list fin_maps pretty.
From Stdlib Require Import ZArith Ascii.

Open Scope string_scope.
Open Scope Z_scope.
Open Scope list_scope.
Open Scope stdpp_scope.

(** ** Task entities *)

Inductive RepeatUnit := seconds | minutes | hours | days | weeks.

(** A deleted task has no row, so a stored task is scheduled or stopped. *)
Inductive Status := scheduled | stopped.

Global Instance RepeatUnit_eq_dec : EqDecision RepeatUnit.
Proof. solve_decision. Defined.

Global Instance Status_eq_dec : EqDecision Status.
Proof. solve_decision. Defined.

(** Modelled from the spec: the class [ETLTask] of [etl_task.py], which is
    not among the sources; its fields are those of the data model and of
    the field list in [read_task].  The load and save callables and the
    configuration are opaque blobs; a timestamp is a number of seconds. *)
Record ETLTask := mkTask {
  name : string;
  fun_data_load : string;
  fun_data_save : string;
  repeat_time_unit : RepeatUnit;
  repeat_interval : Z;
  time_run_last_start : option Z;
  time_run_last_end : option Z;
  num_runs : Z;
  status : Status;
  config : list (string * string)
}.

Definition unit_str (u : RepeatUnit) : string :=
  match u with
  | seconds => "seconds" | minutes => "minutes" | hours => "hours"
  | days => "days" | weeks => "weeks"
  end.

Definition status_str (s : Status) : string :=
  match s with scheduled => "scheduled" | stopped => "stopped" end.

(** ** Python values that travel in a response *)

Inductive Value :=
| VNone
| VStr (s : string)
| VInt (z : Z)
| VDict (kvs : list (string * string)).

(** A row is a dict from field name to value, kept in field order. *)
Abbreviation Row := (list (string * Value)).

Inductive Data :=
| DataList (rows : list Row)
| DataRow (row : Row).

(** [str(t)] for a nullable timestamp. *)
Definition str_time (t : option Z) : string :=
  match t with None => "None" | Some z => pretty z end.

Definition time_value (t : option Z) : Value :=
  match t with None => VNone | Some z => VInt z end.

(** ** Exceptions *)

Inductive exn :=
| DuplicateNameError
| NotFoundError
| ValidationError
| SchedulingError
| DecodeError
| KeyError (key : string)
| UnboundLocalError (var : string)
| TypeError.

Global Instance exn_eq_dec : EqDecision exn.
Proof. solve_decision. Defined.

(** [str(e)], as the f-strings of the endpoints print it.  The errors of
    the store and of the tick engine print as their names in the error
    taxonomy; [KeyError] prints the quoted key, as in Python. *)
Definition exn_str (e : exn) : string :=
  match e with
  | DuplicateNameError => "DuplicateNameError"
  | NotFoundError => "NotFoundError"
  | ValidationError => "ValidationError"
  | SchedulingError => "SchedulingError"
  | DecodeError => "DecodeError"
  | KeyError k => "'" +:+ k +:+ "'"
  | UnboundLocalError v =>
      "cannot access local variable '" +:+ v +:+
      "' where it is not associated with a value"
  | TypeError => "TypeError"
  end.

Inductive result (A : Type) :=
| Ok (a : A)
| Raise (e : exn).
Arguments Ok {A} a.
Arguments Raise {A} e.

(** ** The task store

    Modelled from the spec: [ETLDataBaseManager] of [etl_db_manager.py],
    which is not among the sources.  The table is the list of its rows in
    insertion order; [name] is the key. *)

Abbreviation Store := (list ETLTask).

Definition has_task (n : string) (db : Store) : bool :=
  bool_decide (n ∈ name <$> db).

Definition named (n : string) (task : ETLTask) : Prop := name task = n.

Global Instance named_dec n task : Decision (named n task).
Proof. unfold named. apply _. Defined.

Definition find_task (n : string) (db : Store) : option ETLTask :=
  head (filter (named n) db).

(** Modelled from the spec: [create_task] of the store, which
    [etl_db_manager.py] would define.  [DuplicateNameError] when the name
    is taken, else the row is inserted. *)
Definition store_create (task : ETLTask) (db : Store) : result Store :=
  if has_task (name task) db then Raise DuplicateNameError
  else Ok (db ++ [task]).

(** The fields a caller may ask for, by column name. *)
Definition task_field (task : ETLTask) (field : string) : option Value :=
  if decide (field = "name") then Some (VStr (name task))
  else if decide (field = "fun_data_load") then Some (VStr (fun_data_load task))
  else if decide (field = "fun_data_save") then Some (VStr (fun_data_save task))
  else if decide (field = "repeat_time_unit")
       then Some (VStr (unit_str (repeat_time_unit task)))
  else if decide (field = "repeat_interval") then Some (VInt (repeat_interval task))
  else if decide (field = "time_run_last_start")
       then Some (time_value (time_run_last_start task))
  else if decide (field = "time_run_last_end")
       then Some (time_value (time_run_last_end task))
  else if decide (field = "num_runs") then Some (VInt (num_runs task))
  else if decide (field = "status") then Some (VStr (status_str (status task)))
  else if decide (field = "config") then Some (VDict (config task))
  else None.

Fixpoint project (task : ETLTask) (fields : list string) : result Row :=
  match fields with
  | [] => Ok []
  | f :: rest =>
      match task_field task f with
      | None => Raise ValidationError
      | Some v =>
          match project task rest with
          | Ok row => Ok ((f, v) :: row)
          | Raise e => Raise e
          end
      end
  end.

(** Modelled from the spec: [read_task] of the store.  [NotFoundError]
    when there is no such row, else the requested fields of the row. *)
Definition store_read (n : string) (fields : list string) (db : Store)
  : result Row :=
  match find_task n db with
  | None => Raise NotFoundError
  | Some task => project task fields
  end.

(** An equality filter over one field; the endpoints filter on the status
    and on the name only. *)
Inductive Filter :=
| by_status (s : Status)
| by_name (n : string).

Definition matches (task : ETLTask) (f : Filter) : bool :=
  match f with
  | by_status s => bool_decide (status task = s)
  | by_name n => bool_decide (name task = n)
  end.

(** Modelled from the spec: [load_tasks] of the store.  The rows that
    pass every filter; with no filter, every row. *)
Definition store_load (filters : list Filter) (db : Store) : list ETLTask :=
  filter (λ task, forallb (matches task) filters = true) db.

(** One entry of a [new_values] dict.  The name of a task is immutable, so
    there is no entry that sets it. *)
Inductive NewValue :=
| new_fun_data_load (v : string)
| new_fun_data_save (v : string)
| new_repeat_time_unit (u : RepeatUnit)
| new_repeat_interval (z : Z)
| new_time_run_last_start (t : option Z)
| new_time_run_last_end (t : option Z)
| new_num_runs (z : Z)
| new_status (s : Status)
| new_config (c : list (string * string)).

(** A value that would break an invariant of the entity is refused. *)
Definition valid_value (v : NewValue) : bool :=
  match v with
  | new_repeat_interval z => bool_decide (0 < z)
  | new_num_runs z => bool_decide (0 ≤ z)
  | _ => true
  end.

Definition set_value (task : ETLTask) (v : NewValue) : ETLTask :=
  match v with
  | new_fun_data_load x =>
      mkTask (name task) x (fun_data_save task) (repeat_time_unit task)
        (repeat_interval task) (time_run_last_start task)
        (time_run_last_end task) (num_runs task) (status task) (config task)
  | new_fun_data_save x =>
      mkTask (name task) (fun_data_load task) x (repeat_time_unit task)
        (repeat_interval task) (time_run_last_start task)
        (time_run_last_end task) (num_runs task) (status task) (config task)
  | new_repeat_time_unit x =>
      mkTask (name task) (fun_data_load task) (fun_data_save task) x
        (repeat_interval task) (time_run_last_start task)
        (time_run_last_end task) (num_runs task) (status task) (config task)
  | new_repeat_interval x =>
      mkTask (name task) (fun_data_load task) (fun_data_save task)
        (repeat_time_unit task) x (time_run_last_start task)
        (time_run_last_end task) (num_runs task) (status task) (config task)
  | new_time_run_last_start x =>
      mkTask (name task) (fun_data_load task) (fun_data_save task)
        (repeat_time_unit task) (repeat_interval task) x
        (time_run_last_end task) (num_runs task) (status task) (config task)
  | new_time_run_last_end x =>
      mkTask (name task) (fun_data_load task) (fun_data_save task)
        (repeat_time_unit task) (repeat_interval task)
        (time_run_last_start task) x (num_runs task) (status task) (config task)
  | new_num_runs x =>
      mkTask (name task) (fun_data_load task) (fun_data_save task)
        (repeat_time_unit task) (repeat_interval task)
        (time_run_last_start task) (time_run_last_end task) x (status task)
        (config task)
  | new_status x =>
      mkTask (name task) (fun_data_load task) (fun_data_save task)
        (repeat_time_unit task) (repeat_interval task)
        (time_run_last_start task) (time_run_last_end task) (num_runs task) x
        (config task)
  | new_config x =>
      mkTask (name task) (fun_data_load task) (fun_data_save task)
        (repeat_time_unit task) (repeat_interval task)
        (time_run_last_start task) (time_run_last_end task) (num_runs task)
        (status task) x
  end.

Definition set_values (new_values : list NewValue) (task : ETLTask) : ETLTask :=
  foldl set_value task new_values.

(** Modelled from the spec: [update_task] of the store.  [NotFoundError]
    when there is no such row, [ValidationError] on a bad value, else the
    named fields are replaced. *)
Definition store_update (n : string) (new_values : list NewValue) (db : Store)
  : result Store :=
  if has_task n db then
    if forallb valid_value new_values then
      Ok ((λ task, if decide (named n task) then set_values new_values task
                   else task) <$> db)
    else Raise ValidationError
  else Raise NotFoundError.

(** Modelled from the spec: [delete_task] of the store.  [NotFoundError]
    when there is no such row, else the row is removed. *)
Definition store_delete (n : string) (db : Store) : result Store :=
  if has_task n db then Ok (filter (λ task, ¬ named n task) db)
  else Raise NotFoundError.

(** ** The tick engine

    The default scheduler of the [schedule] package: the list of its jobs.
    A job object is identified by the number it got when it was made. *)

Record Job := mkJob {
  job_id : nat;
  job_task : string;
  job_unit : RepeatUnit;
  job_interval : Z;
  job_host : string;
  job_port : Z
}.

Record Scheduler := mkScheduler {
  jobs : list Job;
  next_id : nat
}.

(** [schedule.cancel_job(job)]: the job leaves the list; cancelling a job
    that is not in the list is not an error. *)
Definition cancel (job : Job) (sch : Scheduler) : Scheduler :=
  mkScheduler (filter (λ j, job_id j ≠ job_id job) (jobs sch)) (next_id sch).

(** ** Responses *)

Module Response.
Record t := mk {
  status : Z;
  message : string;
  data : option Data
}.
Definition with_message (r : t) (m : string) : t := mk (status r) m (data r).
End Response.

(** ** Module globals *)

Record Globals := mkGlobals {
  DB_MANAGER : Store;
  HOST : string;
  PORT : Z;
  SCHEDULER_RUNNING : bool;
  SCHEDULED_JOBS : gmap string Job;
  schedule : Scheduler
}.

Definition with_db (db : Store) (g : Globals) : Globals :=
  mkGlobals db (HOST g) (PORT g) (SCHEDULER_RUNNING g) (SCHEDULED_JOBS g)
    (schedule g).

Definition with_running (b : bool) (g : Globals) : Globals :=
  mkGlobals (DB_MANAGER g) (HOST g) (PORT g) b (SCHEDULED_JOBS g) (schedule g).

Definition with_jobs (m : gmap string Job) (g : Globals) : Globals :=
  mkGlobals (DB_MANAGER g) (HOST g) (PORT g) (SCHEDULER_RUNNING g) m
    (schedule g).

Definition with_schedule (sch : Scheduler) (g : Globals) : Globals :=
  mkGlobals (DB_MANAGER g) (HOST g) (PORT g) (SCHEDULER_RUNNING g)
    (SCHEDULED_JOBS g) sch.

(** ** Computations over the globals that may raise *)

Definition M (A : Type) : Type := Globals → result A * Globals.

Global Instance M_ret : MRet M := λ A a g, (Ok a, g).

Global Instance M_bind : MBind M := λ A B f m g,
  match m g with
  | (Ok a, g') => f a g'
  | (Raise e, g') => (Raise e, g')
  end.

Definition raise {A} (e : exn) : M A := λ g, (Raise e, g).

(** What a computation returns or raises, and the globals it leaves. *)
Definition outcome {A} (m : M A) (g : Globals) : result A := fst (m g).

Definition state_after {A} (m : M A) (g : Globals) : Globals := snd (m g).

Definition gets {A} (f : Globals → A) : M A := λ g, (Ok (f g), g).

Definition modify (f : Globals → Globals) : M unit := λ g, (Ok (), f g).

(** [try: body  except Exception as e: handler e] *)
Definition try_except {A} (body : M A) (handler : exn → M A) : M A := λ g,
  match body g with
  | (Ok a, g') => (Ok a, g')
  | (Raise e, g') => handler e g'
  end.

(** [if cond: body] *)
Definition when (cond : bool) (body : M unit) : M unit :=
  if cond then body else mret ().

(** [for x in xs: body x] *)
Fixpoint for_each {A} (xs : list A) (body : A → M unit) : M unit :=
  match xs with
  | [] => mret ()
  | x :: rest => body x ;; for_each rest body
  end.

(** [for x in xs: acc = body acc x], with the accumulator a local. *)
Fixpoint foldlM {A B} (body : B → A → M B) (acc : B) (xs : list A) : M B :=
  match xs with
  | [] => mret acc
  | x :: rest => acc' ← body acc x; foldlM body acc' rest
  end.

(** A call of the store that replaces the table, or raises and leaves it. *)
Definition on_store (op : Store → result Store) : M unit := λ g,
  match op (DB_MANAGER g) with
  | Ok db => (Ok (), with_db db g)
  | Raise e => (Raise e, g)
  end.

Definition DB_create_task (task : ETLTask) : M unit :=
  on_store (store_create task).

Definition DB_update_task (n : string) (new_values : list NewValue) : M unit :=
  on_store (store_update n new_values).

Definition DB_delete_task (n : string) : M unit :=
  on_store (store_delete n).

Definition DB_read_task (n : string) (fields : list string) : M Row := λ g,
  (store_read n fields (DB_MANAGER g), g).

Definition DB_load_tasks (filters : list Filter) : M (list ETLTask) :=
  gets (λ g, store_load filters (DB_MANAGER g)).

(** [schedule.cancel_job(job=job)] *)
Definition cancel_job (job : Job) : M unit :=
  modify (λ g, with_schedule (cancel job (schedule g)) g).

(** [SCHEDULED_JOBS[key] = job] *)
Definition set_job (key : string) (job : Job) : M unit :=
  modify (λ g, with_jobs (<[key := job]> (SCHEDULED_JOBS g)) g).

(** [del(SCHEDULED_JOBS[key])]: [KeyError] when the key is missing. *)
Definition del_job (key : string) : M unit := λ g,
  match SCHEDULED_JOBS g !! key with
  | Some _ => (Ok (), with_jobs (delete key (SCHEDULED_JOBS g)) g)
  | None => (Raise (KeyError key), g)
  end.

(** [fields.split(' ')]: the pieces between single spaces, empty pieces
    included. *)
Fixpoint split_spaces (s : string) : list string :=
  match s with
  | EmptyString => [""]
  | String c rest =>
      if Ascii.eqb c " "%char then "" :: split_spaces rest
      else match split_spaces rest with
           | [] => [String c ""]
           | piece :: pieces => String c piece :: pieces
           end
  end.

Definition all_fields : list string :=
  ["name"; "fun_data_load"; "fun_data_save"; "repeat_time_unit";
   "repeat_interval"; "time_run_last_start"; "time_run_last_end";
   "num_runs"; "status"; "config"].

(** The dict that [read_all_tasks] builds for one task. *)
Definition summary (task : ETLTask) : Row :=
  [("name", VStr (name task));
   ("status", VStr (status_str (status task)));
   ("num_runs", VInt (num_runs task));
   ("repeat_time_unit", VStr (unit_str (repeat_time_unit task)));
   ("repeat_interval", VInt (repeat_interval task));
   ("time_run_last_start", VStr (str_time (time_run_last_start task)));
   ("time_run_last_end", VStr (str_time (time_run_last_end task)))].

(** ** What the module takes from outside

    [base64decode_obj] of [utility.py] turns the request string into a
    task, or fails; [registers] says whether the tick engine takes the
    periodic registration of a task. *)
Class Collaborators := {
  base64decode_obj : string → option ETLTask;
  registers : ETLTask → bool
}.

Section Pipeline.
Context `{Collaborators}.

(** Modelled from the spec: the method [ETLTask.schedule] of
    [etl_task.py], which is not among the sources.  It registers the
    task with the tick engine under its unit and interval and returns
    the handle; a registration for a name that already has one replaces
    it; a registration the engine refuses raises and changes nothing. *)
Definition task_schedule (task : ETLTask) (host : string) (port : Z)
  : M Job := λ g,
  if registers task then
    let sch := schedule g in
    let job := mkJob (next_id sch) (name task) (repeat_time_unit task)
                 (repeat_interval task) host port in
    (Ok job,
     with_schedule
       (mkScheduler
          (filter (λ j, job_task j ≠ name task) (jobs sch) ++ [job])
          (S (next_id sch))) g)
  else (Raise SchedulingError, g).

(** [task.schedule(schedule=schedule, host=HOST, port=PORT)] *)
Definition schedule_here (task : ETLTask) : M Job := λ g,
  task_schedule task (HOST g) (PORT g) g.

(** Modelled from the spec: the callback of a job, which lives in
    [etl_task.py].  After the load and the save it writes the run
    counter and the two timestamps of its task to the store; a failure
    is caught and stays with this job.  The load and the save touch
    nothing of the modelled state, so a job whose load or save fails
    behaves like a job that is not due. *)
Definition run_job (now : Z) (job : Job) : M unit :=
  try_except
    (λ g, match find_task (job_task job) (DB_MANAGER g) with
          | None => (Raise NotFoundError, g)
          | Some task =>
              DB_update_task (job_task job)
                [new_num_runs (num_runs task + 1);
                 new_time_run_last_start (Some now);
                 new_time_run_last_end (Some now)] g
          end)
    (λ _, mret ()).

(** [schedule.run_pending()] at time [now], where [due] tells the jobs
    whose period has elapsed. *)
Definition run_pending (now : Z) (due : Job → bool) : M unit :=
  js ← gets (λ g, filter (λ j, due j = true) (jobs (schedule g)));
  for_each js (run_job now).

(** [run_scheduler], observed for as many rounds as there are ticks:
    [while SCHEDULER_RUNNING == True: schedule.run_pending(); sleep(1)]. *)
Fixpoint run_scheduler (ticks : list (Z * (Job → bool))) : M unit :=
  match ticks with
  | [] => mret ()
  | (now, due) :: rest =>
      running ← gets SCHEDULER_RUNNING;
      when running (run_pending now due ;; run_scheduler rest)
  end.

(** The loop of [start_tasks]:
    [for task in DB_MANAGER.load_tasks(filters={'status':'scheduled'}):
       task.schedule(...)].  The handle is dropped. *)
Definition schedule_saved_tasks : M unit :=
  tasks ← DB_load_tasks [by_status scheduled];
  for_each tasks (λ task, schedule_here task ;; mret ()).

Definition empty_data : option Data := Some (DataList []).

(** [start_scheduler].  The thread it starts is [run_scheduler]; its
    rounds are steps of their own.  [start_tasks] is called with the
    flag just set, so its guard does not call back and what runs is its
    loop (see [start_tasks_when_running]). *)
Definition start_scheduler : M Response.t :=
  try_except
    (running ← gets SCHEDULER_RUNNING;
     if bool_decide (running = true) return M Response.t then
       mret (Response.mk 200 "Scheduler is already running." empty_data)
     else
       modify (with_running true) ;;
       schedule_saved_tasks ;;
       mret (Response.mk 200 "Scheduler started." empty_data))
    (λ e, mret (Response.mk 400
                  ("Scheduler could not be started due to " +:+ exn_str e
                   +:+ ".") empty_data)).

(** [if SCHEDULER_RUNNING == False: start_scheduler()], the guard that
    opens [start_tasks], [create_task] and [start_task]; the response of
    [start_scheduler] is dropped. *)
Definition ensure_running : M unit :=
  running ← gets SCHEDULER_RUNNING;
  when (bool_decide (running = false)) (start_scheduler ;; mret ()).

(** [start_tasks] *)
Definition start_tasks : M unit :=
  ensure_running ;;
  schedule_saved_tasks.

(** The [try] block of [stop_task]. *)
Definition stop_task_try (task_name : string) : M Response.t :=
  registry ← gets SCHEDULED_JOBS;
  match registry !! task_name return M Response.t with
  | Some job =>
      cancel_job job ;;
      DB_update_task task_name [new_status stopped] ;;
      mret (Response.mk 200 "Success. Task has been stopped." empty_data)
  | None => mret (Response.mk 200 "" empty_data)
  end.

(** [stop_task].  The last assignment to the message comes after the
    [try] statement and runs on both paths. *)
Definition stop_task (task_name : string) : M Response.t :=
  response ← try_except (stop_task_try task_name)
    (λ e, mret (Response.mk 400
                  ("Failure. Could not stop task " +:+ task_name
                   +:+ " due to " +:+ exn_str e +:+ ".") empty_data));
  mret (Response.with_message response
          ("Success. Task " +:+ task_name +:+ " has been stopped.")).

(** The [try] block of [delete_task]. *)
Definition delete_task_try (task_name : string) : M Response.t :=
  stop_task task_name ;;
  DB_delete_task task_name ;;
  del_job task_name ;;
  mret (Response.mk 200 ("Success. Task " +:+ task_name +:+ " deleted.")
          empty_data).

(** [delete_task].  As in [stop_task], the message is assigned once more
    after the [try] statement. *)
Definition delete_task (task_name : string) : M Response.t :=
  response ← try_except (delete_task_try task_name)
    (λ e, mret (Response.mk 400
                  ("Failure. Could not delete task " +:+ task_name
                   +:+ " due to " +:+ exn_str e +:+ ".") empty_data));
  mret (Response.with_message response
          ("Success. Deleted task " +:+ task_name +:+ ".")).

(** The [try] block of [create_task] from the decoded task on. *)
Definition create_task_try (task : ETLTask) : M Response.t :=
  DB_create_task task ;;
  job ← schedule_here task;
  set_job (name task) job ;;
  mret (Response.mk 200
          ("Success. Task created and scheduled " +:+ name task +:+ ".")
          empty_data).

(** [create_task].  The [except] clause reads [task.name]: when the
    decoding raised, [task] was never bound and the clause itself raises
    [UnboundLocalError], which leaves the function. *)
Definition create_task (task_str : string) : M Response.t :=
  ensure_running ;;
  match base64decode_obj task_str with
  | None => raise (UnboundLocalError "task")
  | Some task =>
      try_except (create_task_try task)
        (λ e,
           delete_task (name task) ;;
           mret (Response.mk 400
                   ("Failure. Could not create task due to " +:+ exn_str e
                    +:+ ".") empty_data))
  end.

(** [read_task] *)
Definition read_task (task_name : string) (fields : string)
  : M Response.t :=
  let fields := if decide (fields = "") then all_fields
                else split_spaces fields in
  try_except
    (task ← DB_read_task task_name fields;
     mret (Response.mk 200
             ("Success. Retrieved task " +:+ task_name +:+ ".")
             (Some (DataRow task))))
    (λ e, mret (Response.mk 400
                  ("Failure. Could not get task " +:+ task_name
                   +:+ " due to " +:+ exn_str e +:+ ".") empty_data)).

(** [read_all_tasks] *)
Definition read_all_tasks : M Response.t :=
  try_except
    (tasks ← DB_load_tasks [];
     mret (Response.mk 200 "Success. Retrieved tasks."
             (Some (DataList (summary <$> tasks)))))
    (λ e, mret (Response.mk 400
                  ("Failure. Could not get tasks due to " +:+ exn_str e
                   +:+ ".") empty_data)).

(** The printed form of a [new_values] dict is not modelled; the success
    message of [update_task] ends where the dict would be printed. *)
Definition update_task (task_name : string) (new_values : list NewValue)
  : M Response.t :=
  try_except
    (DB_update_task task_name new_values ;;
     mret (Response.mk 200
             ("Success. Status of task " +:+ task_name
              +:+ " updated with new values.") empty_data))
    (λ e, mret (Response.mk 400
                  ("Failure. Could not update status of task " +:+ task_name
                   +:+ " due to " +:+ exn_str e +:+ ".") empty_data)).

(** [stop_scheduler].  Its [except] clause calls [logger.log] with one
    argument, which would raise [TypeError]; nothing in the body can
    raise, so the clause is never entered. *)
Definition stop_scheduler : M Response.t :=
  try_except
    (running ← gets SCHEDULER_RUNNING;
     if bool_decide (running = false) return M Response.t then
       mret (Response.mk 200 "Scheduler is not running." empty_data)
     else
       modify (with_running false) ;;
       mret (Response.mk 200 "Scheduler stopped." empty_data))
    (λ e, raise TypeError).

(** The body of the loop of [start_task], with the message so far. *)
Definition start_if_stopped (task_name : string) (message : string)
    (task : ETLTask) : M string :=
  if decide (status task = stopped) then
    schedule_here task ;;
    mret (message +:+ "Started task '" +:+ task_name +:+ "'. ")
  else mret message.

(** [start_task].  Its response has no [data] key.  The handle that
    scheduling returns is dropped and the store is not written. *)
Definition start_task (task_name : string) : M Response.t :=
  try_except
    (ensure_running ;;
     tasks ← DB_load_tasks [by_name task_name];
     message ← foldlM (start_if_stopped task_name) "" tasks;
     mret (Response.mk 200 message None))
    (λ e, mret (Response.mk 400
                  ("Failed to start task '" +:+ task_name +:+ "' due to "
                   +:+ exn_str e +:+ ".") None)).
End Pipeline.

(** ** The process at start, and sample data *)

(** The globals when the module has been loaded and [__main__] has bound
    the store, the host and the port: the flag is off, the dict is empty
    and no job is known to the tick engine. *)
Definition boot (db : Store) (host : string) (port : Z) : Globals :=
  mkGlobals db host port false ∅ (mkScheduler [] 0).

Definition sample_task (n : string) (s : Status) : ETLTask :=
  mkTask n "load" "save" hours 24 None None 0 s [].

(** Collaborators for the examples: the empty request does not decode and
    any other request decodes to a daily task of that name; the tick
    engine takes every registration. *)
Definition sample : Collaborators := {|
  base64decode_obj := λ s,
    if decide (s = "") then None else Some (sample_task s scheduled);
  registers := λ _, true
|}.

(** A store as a restart finds it: A and C scheduled, B stopped. *)
Definition saved_ABC : Store :=
  [sample_task "A" scheduled; sample_task "B" stopped;
   sample_task "C" scheduled].

Definition restarted : Globals := boot saved_ABC "127.0.0.1" 8003.

(** The process after it has restarted on that store and the coordinator
    has been started. *)
Definition recovered : Globals := state_after (@start_scheduler sample) restarted.

(** A process that booted on an empty store and has served one request,
    the creation of task A. *)
Definition serving_A : Globals :=
  state_after (@create_task sample "A") (boot [] "127.0.0.1" 8003).

(** ** Vocabulary of the properties *)

(** The status column of a task, if it has a row. *)
Definition status_of (n : string) (g : Globals) : option Status :=
  status <$> find_task n (DB_MANAGER g).

(** A name has a registration with the tick engine. *)
Definition registered (n : string) (sch : Scheduler) : Prop :=
  n ∈ job_task <$> jobs sch.

(** The rows after [update_task(name, {'status': 'stopped'})]. *)
Definition stopped_rows (n : string) (db : Store) : Store :=
  (λ task, if decide (named n task) then set_values [new_status stopped] task
           else task) <$> db.

Definition stopped_message (n : string) : string :=
  "Success. Task " +:+ n +:+ " has been stopped.".

Definition deleted_message (n : string) : string :=
  "Success. Deleted task " +:+ n +:+ ".".

(** A step that only registers jobs: the store, the host, the port, the
    flag and the dict stay, and no name loses its registration. *)
Definition engine_step (g g' : Globals) : Prop :=
  DB_MANAGER g' = DB_MANAGER g ∧ HOST g' = HOST g ∧ PORT g' = PORT g ∧
  SCHEDULER_RUNNING g' = SCHEDULER_RUNNING g ∧
  SCHEDULED_JOBS g' = SCHEDULED_JOBS g ∧
  ∀ n, registered n (schedule g) → registered n (schedule g').

(** A step that only rewrites rows: names, flag, dict and engine stay. *)
Definition rows_step (g g' : Globals) : Prop :=
  (∀ m, has_task m (DB_MANAGER g') = has_task m (DB_MANAGER g)) ∧
  HOST g' = HOST g ∧ PORT g' = PORT g ∧
  SCHEDULER_RUNNING g' = SCHEDULER_RUNNING g ∧
  SCHEDULED_JOBS g' = SCHEDULED_JOBS g ∧
  schedule g' = schedule g.

(** A call of an endpoint or of a function of the coordinator, or some
    rounds of the tick loop. *)
Inductive Call :=
| call_create_task (task_str : string)
| call_delete_task (task_name : string)
| call_read_task (task_name fields : string)
| call_read_all_tasks
| call_update_task (task_name : string) (new_values : list NewValue)
| call_stop_task (task_name : string)
| call_start_task (task_name : string)
| call_start_scheduler
| call_stop_scheduler
| call_start_tasks
| call_run_scheduler (ticks : list (Z * (Job → bool))).

Definition exec `{Collaborators} (c : Call) (g : Globals) : Globals :=
  match c with
  | call_create_task task_str => state_after (create_task task_str) g
  | call_delete_task task_name => state_after (delete_task task_name) g
  | call_read_task task_name fields =>
      state_after (read_task task_name fields) g
  | call_read_all_tasks => state_after read_all_tasks g
  | call_update_task task_name new_values =>
      state_after (update_task task_name new_values) g
  | call_stop_task task_name => state_after (stop_task task_name) g
  | call_start_task task_name => state_after (start_task task_name) g
  | call_start_scheduler => state_after start_scheduler g
  | call_stop_scheduler => state_after stop_scheduler g
  | call_start_tasks => state_after start_tasks g
  | call_run_scheduler ticks => state_after (run_scheduler ticks) g
  end.

(** The states a process can be in: it boots, then serves calls. *)
Inductive reachable `{Collaborators} : Globals → Prop :=
| reachable_boot db host port : reachable (boot db host port)
| reachable_call c g : reachable g → reachable (exec c g).

(** The dict has an entry for exactly the names whose task is scheduled,
    and only while the scheduler runs. *)
Definition entry_iff_scheduled_and_running (g : Globals) : Prop :=
  ∀ n, is_Some (SCHEDULED_JOBS g !! n) ↔
       status_of n g = Some scheduled ∧ SCHEDULER_RUNNING g = true.

(** Every name in the dict has a row in the store. *)
Definition entries_have_rows (g : Globals) : Prop :=
  ∀ n, is_Some (SCHEDULED_JOBS g !! n) → has_task n (DB_MANAGER g) = true.

(** Two calls of [stop_task] in a row: the task is stopped after each and
    the second call reports success. *)
Definition stopped_twice (n : string) (g : Globals) : Prop :=
  let g1 := state_after (stop_task n) g in
  let g2 := state_after (stop_task n) g1 in
  status_of n g1 = Some stopped ∧ status_of n g2 = Some stopped ∧
  outcome (stop_task n) g1 =
    Ok (Response.mk 200 (stopped_message n) empty_data).

(** The job that [task.schedule] makes for a task in given globals. *)
Definition job_for (task : ETLTask) (g : Globals) : Job :=
  mkJob (next_id (schedule g)) (name task) (repeat_time_unit task)
    (repeat_interval task) (HOST g) (PORT g).

(** The row that a read of every field returns for a task. *)
Definition full_row (task : ETLTask) : Row :=
  [("name", VStr (name task));
   ("fun_data_load", VStr (fun_data_load task));
   ("fun_data_save", VStr (fun_data_save task));
   ("repeat_time_unit", VStr (unit_str (repeat_time_unit task)));
   ("repeat_interval", VInt (repeat_interval task));
   ("time_run_last_start", time_value (time_run_last_start task));
   ("time_run_last_end", time_value (time_run_last_end task));
   ("num_runs", VInt (num_runs task));
   ("status", VStr (status_str (status task)));
   ("config", VDict (config task))].

(** Every entry of the dict holds a job of the task it is filed under. *)
Definition entries_name_their_jobs (g : Globals) : Prop :=
  ∀ n job, SCHEDULED_JOBS g !! n = Some job → job_task job = n.

(** [' '.join(pieces)] *)
Fixpoint join_spaces (pieces : list string) : string :=
  match pieces with
  | [] => ""
  | [piece] => piece
  | piece :: rest => piece +:+ " " +:+ join_spaces rest
  end.

(** [' ' in s] *)
Fixpoint has_space (s : string) : bool :=
  match s with
  | EmptyString => false
  | String c rest => Ascii.eqb c " "%char || has_space rest
  end.

(** Some row of the given name has the status stopped. *)
Definition has_stopped_task (n : string) (db : Store) : bool :=
  existsb (λ task, bool_decide (status task = stopped))
    (store_load [by_name n] db).

(** The scheduled tasks of the store, in the order recovery visits them. *)
Definition saved_tasks (g : Globals) : list ETLTask :=
  store_load [by_status scheduled] (DB_MANAGER g).

(** Collaborators whose tick engine refuses a period that is not
    positive; requests decode as for [sample]. *)
Definition strict : Collaborators := {|
  base64decode_obj := λ s,
    if decide (s = "") then None
    else if decide (s = "bad")
         then Some (mkTask s "load" "save" hours 0 None None 0 scheduled [])
         else Some (sample_task s scheduled);
  registers := λ task, bool_decide (0 < repeat_interval task)
|}.

(** A restarted process whose store holds a scheduled task with a zero
    period between two sound ones. *)
Definition restarted_bad : Globals :=
  boot [sample_task "A" scheduled;
        mkTask "bad" "load" "save" hours 0 None None 0 scheduled [];
        sample_task "C" scheduled] "127.0.0.1" 8003.

Ltac run_monad :=
  unfold outcome, state_after, DB_update_task, DB_delete_task,
    DB_create_task, DB_read_task, DB_load_tasks, on_store, cancel_job,
    set_job, del_job, try_except, when, gets, modify, raise, mbind, M_bind,
    mret, M_ret in *;
  simpl in *.

(** ** Facts about the store *)

Lemma set_value_name task v : name (set_value task v) = name task.
Proof. by destruct v. Qed.

Lemma set_values_name new_values task :
  name (set_values new_values task) = name task.
Proof.
  unfold set_values. revert task.
  induction new_values as [|v vs IH]; intros task; simpl; [done|].
  by rewrite IH, set_value_name.
Qed.

Lemma store_update_names n new_values db db' :
  store_update n new_values db = Ok db' → name <$> db' = name <$> db.
Proof.
  unfold store_update. repeat case_match; try done.
  intros [= <-]. rewrite <- list_fmap_compose. apply list_fmap_ext.
  intros i task _. simpl. case_decide; [apply set_values_name | done].
Qed.

Lemma has_task_update n new_values db db' m :
  store_update n new_values db = Ok db' → has_task m db' = has_task m db.
Proof.
  intros Hup. unfold has_task. by rewrite (store_update_names _ _ _ _ Hup).
Qed.

Lemma has_task_true n db : has_task n db = true ↔ n ∈ name <$> db.
Proof. unfold has_task. by rewrite bool_decide_eq_true. Qed.

Lemma has_task_false n db : has_task n db = false ↔ n ∉ name <$> db.
Proof. unfold has_task. by rewrite bool_decide_eq_false. Qed.

Lemma elem_of_names_filter (P : ETLTask → Prop) `{!∀ t, Decision (P t)}
    n (db : Store) :
  n ∈ name <$> filter P db ↔ ∃ task, task ∈ db ∧ P task ∧ name task = n.
Proof.
  rewrite list_elem_of_fmap. split.
  - intros (task & -> & Hin). apply list_elem_of_filter in Hin as [? ?].
    by exists task.
  - intros (task & Hin & HP & <-). exists task. split; [done|].
    by apply list_elem_of_filter.
Qed.

Lemma has_task_delete_same n db db' :
  store_delete n db = Ok db' → has_task n db' = false.
Proof.
  unfold store_delete. case_match; [|done]. intros [= <-].
  apply has_task_false. rewrite elem_of_names_filter.
  unfold named. by intros (task & _ & Hne & Heq).
Qed.

Lemma has_task_delete_other n db db' m :
  store_delete n db = Ok db' → has_task m db' = true → has_task m db = true.
Proof.
  unfold store_delete. case_match; [|done]. intros [= <-].
  rewrite !has_task_true, elem_of_names_filter, list_elem_of_fmap.
  intros (task & Hin & _ & <-). by exists task.
Qed.

Lemma store_delete_present n db :
  has_task n db = true →
  store_delete n db = Ok (filter (λ task, ¬ named n task) db).
Proof. unfold store_delete. by intros ->. Qed.

Lemma store_delete_absent n db :
  has_task n db = false → store_delete n db = Raise NotFoundError.
Proof. unfold store_delete. by intros ->. Qed.

Lemma find_task_absent n db : has_task n db = false → find_task n db = None.
Proof.
  rewrite has_task_false. intros Hn. unfold find_task.
  destruct (filter (named n) db) as [|task rest] eqn:Hf; [done|].
  exfalso. apply Hn.
  assert (task ∈ filter (named n) db) as Hin by (rewrite Hf; left).
  apply list_elem_of_filter in Hin as [Hname Hin].
  apply list_elem_of_fmap. by exists task.
Qed.

Lemma find_task_present n db :
  has_task n db = true → ∃ task, find_task n db = Some task ∧ name task = n.
Proof.
  rewrite has_task_true, list_elem_of_fmap. intros (task & -> & Hin).
  unfold find_task.
  destruct (filter (named (name task)) db) as [|t rest] eqn:Hf.
  - assert (task ∈ filter (named (name task)) db) as Hin'
      by (apply list_elem_of_filter; done).
    rewrite Hf in Hin'. by apply elem_of_nil in Hin'.
  - exists t. split; [done|].
    assert (t ∈ filter (named (name task)) db) as Hin' by (rewrite Hf; left).
    by apply list_elem_of_filter in Hin' as [? _].
Qed.

Lemma store_read_absent n fields db :
  has_task n db = false → store_read n fields db = Raise NotFoundError.
Proof. intros Hn. unfold store_read. by rewrite find_task_absent. Qed.

Lemma has_task_delete_ne n db db' m :
  store_delete n db = Ok db' → m ≠ n → has_task m db' = has_task m db.
Proof.
  unfold store_delete. case_match; [|done]. intros [= <-] Hne.
  unfold has_task. apply bool_decide_ext.
  rewrite elem_of_names_filter, list_elem_of_fmap. unfold named.
  split.
  - intros (task & Hin & _ & Hname). by exists task.
  - intros (task & Hname & Hin). exists task.
    split; [done|]. split; congruence.
Qed.

(** ** Facts about the endpoints *)

Lemma globals_eta g :
  mkGlobals (DB_MANAGER g) (HOST g) (PORT g) (SCHEDULER_RUNNING g)
    (SCHEDULED_JOBS g) (schedule g) = g.
Proof. by destruct g. Qed.

Lemma stop_task_no_entry n g :
  SCHEDULED_JOBS g !! n = None →
  stop_task n g = (Ok (Response.mk 200 (stopped_message n) empty_data), g).
Proof. intros Hn. unfold stop_task, stop_task_try. run_monad. by rewrite Hn. Qed.

Lemma stop_task_entry_row n job g :
  SCHEDULED_JOBS g !! n = Some job →
  has_task n (DB_MANAGER g) = true →
  stop_task n g =
    (Ok (Response.mk 200 (stopped_message n) empty_data),
     with_db (stopped_rows n (DB_MANAGER g))
       (with_schedule (cancel job (schedule g)) g)).
Proof.
  intros Hjob Hrow. unfold stop_task, stop_task_try. run_monad.
  rewrite Hjob. unfold store_update. by rewrite Hrow.
Qed.

Lemma stop_task_entry_no_row n job g :
  SCHEDULED_JOBS g !! n = Some job →
  has_task n (DB_MANAGER g) = false →
  stop_task n g =
    (Ok (Response.mk 400 (stopped_message n) empty_data),
     with_schedule (cancel job (schedule g)) g).
Proof.
  intros Hjob Hrow. unfold stop_task, stop_task_try. run_monad.
  rewrite Hjob. unfold store_update. by rewrite Hrow.
Qed.

Lemma has_task_stopped_rows n m db :
  has_task m (stopped_rows n db) = has_task m db.
Proof.
  assert (name <$> stopped_rows n db = name <$> db) as Hnames.
  { unfold stopped_rows. rewrite <- list_fmap_compose.
    apply list_fmap_ext. intros i task _. simpl. by case_decide. }
  unfold has_task. by rewrite Hnames.
Qed.

(** [stop_task] always returns, with the success message; it leaves the
    flag and the dict alone and neither adds nor removes a row. *)
Lemma stop_task_spec n g :
  ∃ r g',
    stop_task n g = (Ok r, g') ∧
    Response.message r = stopped_message n ∧
    (Response.status r = 200 ∨ Response.status r = 400) ∧
    SCHEDULED_JOBS g' = SCHEDULED_JOBS g ∧
    SCHEDULER_RUNNING g' = SCHEDULER_RUNNING g ∧
    ∀ m, has_task m (DB_MANAGER g') = has_task m (DB_MANAGER g).
Proof.
  destruct (SCHEDULED_JOBS g !! n) as [job|] eqn:Hjob.
  - destruct (has_task n (DB_MANAGER g)) eqn:Hrow.
    + rewrite (stop_task_entry_row _ _ _ Hjob Hrow).
      eexists _, _. split; [done|]. simpl.
      repeat split; auto using has_task_stopped_rows.
    + rewrite (stop_task_entry_no_row _ _ _ Hjob Hrow).
      eexists _, _. split; [done|]. simpl. repeat split; auto.
  - rewrite (stop_task_no_entry _ _ Hjob).
    eexists _, _. split; [done|]. simpl. repeat split; auto.
Qed.

(** [delete_task] on a name that has a row: the row goes, and so does the
    entry of the dict when there is one. *)
Lemma delete_task_row n g :
  has_task n (DB_MANAGER g) = true →
  ∃ r g',
    delete_task n g = (Ok r, g') ∧
    Response.message r = deleted_message n ∧
    has_task n (DB_MANAGER g') = false ∧
    SCHEDULED_JOBS g' !! n = None ∧
    (∀ m, m ≠ n → has_task m (DB_MANAGER g') = has_task m (DB_MANAGER g)) ∧
    (∀ m, m ≠ n → SCHEDULED_JOBS g' !! m = SCHEDULED_JOBS g !! m).
Proof.
  intros Hrow. unfold delete_task, delete_task_try.
  destruct (stop_task_spec n g) as (r & g1 & Hstop & _ & _ & Hreg & _ & Hnames).
  run_monad. rewrite Hstop.
  assert (store_delete n (DB_MANAGER g1)
          = Ok (filter (λ task, ¬ named n task) (DB_MANAGER g1))) as Hdel
    by (apply store_delete_present; by rewrite Hnames).
  rewrite Hdel. simpl.
  pose proof (has_task_delete_same _ _ _ Hdel) as Hgone.
  assert (∀ m, m ≠ n →
            has_task m (filter (λ task, ¬ named n task) (DB_MANAGER g1))
            = has_task m (DB_MANAGER g)) as Hrest.
  { intros m Hne. rewrite <- Hnames. by eapply has_task_delete_ne. }
  destruct (SCHEDULED_JOBS g1 !! n) as [job|] eqn:Hjob; simpl.
  - eexists _, _. split; [done|]. simpl.
    repeat split; [done| apply lookup_delete_eq | done |].
    intros m Hne. rewrite <- Hreg. by apply lookup_delete_ne.
  - eexists _, _. split; [done|]. simpl.
    repeat split; [done | done | done |]. intros m _. by rewrite <- Hreg.
Qed.

(** [delete_task] on a name that has no row: a 400 whose message is the
    success message, and only a live job of that name may change. *)
Lemma delete_task_no_row n g :
  has_task n (DB_MANAGER g) = false →
  ∃ g',
    delete_task n g =
      (Ok (Response.mk 400 (deleted_message n) empty_data), g') ∧
    SCHEDULED_JOBS g' = SCHEDULED_JOBS g ∧
    ∀ m, has_task m (DB_MANAGER g') = has_task m (DB_MANAGER g).
Proof.
  intros Hrow. unfold delete_task, delete_task_try.
  destruct (stop_task_spec n g) as (r & g1 & Hstop & _ & _ & Hreg & _ & Hnames).
  run_monad. rewrite Hstop.
  rewrite (store_delete_absent n (DB_MANAGER g1)) by (by rewrite Hnames).
  simpl. eexists. split; [done|]. by split.
Qed.

(** [delete_task] always returns, with the success message. *)
Lemma delete_task_returns n g :
  ∃ r g',
    delete_task n g = (Ok r, g') ∧
    Response.message r = deleted_message n ∧
    (Response.status r = 200 ∨ Response.status r = 400).
Proof.
  unfold delete_task, delete_task_try.
  destruct (stop_task_spec n g) as (r & g1 & Hstop & _).
  run_monad. rewrite Hstop.
  destruct (store_delete n (DB_MANAGER g1)) as [db|e]; simpl.
  - destruct (SCHEDULED_JOBS g1 !! n); simpl; eexists _, _; eauto.
  - eexists _, _; eauto.
Qed.

Lemma read_task_no_row n fields g :
  has_task n (DB_MANAGER g) = false →
  read_task n fields g =
    (Ok (Response.mk 400
           ("Failure. Could not get task " +:+ n +:+ " due to "
            +:+ exn_str NotFoundError +:+ ".") empty_data), g).
Proof.
  intros Hrow. unfold read_task. run_monad.
  by rewrite (store_read_absent _ _ _ Hrow).
Qed.

(** After [delete_task(name)], [read_task(name)] fails with the store's
    [NotFoundError], whether the name had a row or not. *)
Lemma read_task_after_delete n fields g :
  outcome (read_task n fields) (state_after (delete_task n) g) =
    Ok (Response.mk 400
          ("Failure. Could not get task " +:+ n +:+ " due to "
           +:+ exn_str NotFoundError +:+ ".") empty_data).
Proof.
  unfold outcome, state_after.
  destruct (has_task n (DB_MANAGER g)) eqn:Hrow.
  - destruct (delete_task_row n g Hrow) as (r & g' & -> & _ & Hgone & _).
    simpl. by rewrite (read_task_no_row _ _ _ Hgone).
  - destruct (delete_task_no_row n g Hrow) as (g' & -> & _ & Hnames).
    simpl. rewrite read_task_no_row; [done|]. by rewrite Hnames.
Qed.

Global Instance engine_step_preorder : PreOrder engine_step.
Proof.
  split.
  - by intros g.
  - intros g1 g2 g3 (?&?&?&?&?&H12) (?&?&?&?&?&H23).
    repeat split; try congruence. auto.
Qed.

Global Instance rows_step_preorder : PreOrder rows_step.
Proof.
  split.
  - by intros g.
  - intros g1 g2 g3 (H12&?&?&?&?&?) (H23&?&?&?&?&?).
    split; [intros m; by rewrite H23 | repeat split; congruence].
Qed.

Lemma for_each_steps {A} (R : relation Globals) `{!PreOrder R}
    (body : A → M unit) (xs : list A) :
  (∀ x g, R g (state_after (body x) g)) →
  ∀ g, R g (state_after (for_each xs body) g).
Proof.
  intros Hbody. induction xs as [|x rest IH]; intros g.
  - reflexivity.
  - specialize (Hbody x g). unfold state_after in *. simpl.
    unfold mbind, M_bind. destruct (body x g) as [[[]|e] g1]; simpl in *.
    + etrans; [exact Hbody | apply IH].
    + exact Hbody.
Qed.

Section Recovery.
Context `{Collaborators}.

Lemma schedule_here_step task g :
  engine_step g (state_after (schedule_here task) g).
Proof.
  unfold state_after, schedule_here, task_schedule.
  destruct (registers task); simpl; [|reflexivity].
  repeat split. intros n. unfold registered. simpl.
  rewrite !list_elem_of_fmap. intros (job & -> & Hin).
  destruct (decide (job_task job = name task)) as [Heq|Hne].
  - eexists. split; [|apply elem_of_app; right; left]. done.
  - exists job. split; [done|]. apply elem_of_app. left.
    by apply list_elem_of_filter.
Qed.

Lemma schedule_saved_tasks_step g :
  engine_step g (state_after schedule_saved_tasks g).
Proof.
  unfold schedule_saved_tasks. run_monad.
  apply (for_each_steps engine_step). intros task g1.
  pose proof (schedule_here_step task g1) as Hstep.
  unfold state_after in *. unfold mbind, M_bind. simpl.
  by destruct (schedule_here task g1) as [[job|e] g2].
Qed.

(** [start_tasks] called with the flag set is its loop: this is the call
    that [start_scheduler] makes. *)
Lemma start_tasks_when_running g :
  SCHEDULER_RUNNING g = true → start_tasks g = schedule_saved_tasks g.
Proof.
  intros Hrun. unfold start_tasks, ensure_running. run_monad.
  rewrite Hrun. simpl.
  by destruct (schedule_saved_tasks g) as [[[]|e] g'].
Qed.

(** [start_scheduler] always returns and leaves the flag set; apart
    from the flag it only registers jobs. *)
Lemma start_scheduler_spec g :
  ∃ r g',
    start_scheduler g = (Ok r, g') ∧
    SCHEDULER_RUNNING g' = true ∧
    engine_step (with_running true g) g'.
Proof.
  unfold start_scheduler. run_monad.
  destruct (SCHEDULER_RUNNING g) eqn:Hrun; simpl.
  - eexists _, _. split; [done|]. split; [done|].
    destruct g; simpl in *. by subst.
  - pose proof (schedule_saved_tasks_step (with_running true g)) as Hstep.
    unfold state_after in Hstep.
    destruct (schedule_saved_tasks (with_running true g)) as [[[]|e] g'];
      simpl in *; eexists _, _; (split; [done|]); split; try done;
      by destruct Hstep as (?&?&?&->&?).
Qed.

Lemma ensure_running_spec g :
  ∃ g',
    ensure_running g = (Ok (), g') ∧
    SCHEDULER_RUNNING g' = true ∧
    engine_step (with_running true g) g'.
Proof.
  unfold ensure_running. run_monad.
  destruct (SCHEDULER_RUNNING g) eqn:Hrun; simpl.
  - exists g. split; [done|]. split; [done|].
    destruct g; simpl in *. by subst.
  - destruct (start_scheduler_spec g) as (r & g' & Hst & ? & ?).
    exists g'. rewrite Hst. done.
Qed.
End Recovery.

Lemma update_task_spec n new_values g :
  ∃ r, outcome (update_task n new_values) g = Ok r ∧
       rows_step g (state_after (update_task n new_values) g).
Proof.
  unfold update_task. run_monad.
  destruct (store_update n new_values (DB_MANAGER g)) as [db|e] eqn:Hup;
    simpl; (eexists; split; [done|]).
  - split; [|done]. intros m. simpl. eapply has_task_update, Hup.
  - reflexivity.
Qed.

Lemma read_task_spec n fields g :
  ∃ r, read_task n fields g = (Ok r, g).
Proof.
  unfold read_task. run_monad.
  destruct (store_read n _ (DB_MANAGER g)); simpl; eauto.
Qed.

Lemma read_all_tasks_spec g : ∃ r, read_all_tasks g = (Ok r, g).
Proof. unfold read_all_tasks. run_monad. eauto. Qed.

Lemma stop_scheduler_running g :
  SCHEDULER_RUNNING g = true →
  stop_scheduler g =
    (Ok (Response.mk 200 "Scheduler stopped." empty_data),
     with_running false g).
Proof. intros Hrun. unfold stop_scheduler. run_monad. by rewrite Hrun. Qed.

Lemma stop_scheduler_not_running g :
  SCHEDULER_RUNNING g = false →
  stop_scheduler g =
    (Ok (Response.mk 200 "Scheduler is not running." empty_data), g).
Proof. intros Hrun. unfold stop_scheduler. run_monad. by rewrite Hrun. Qed.

Lemma run_job_step now job g :
  run_job now job g = (Ok (), state_after (run_job now job) g) ∧
  rows_step g (state_after (run_job now job) g).
Proof.
  unfold run_job. run_monad.
  destruct (find_task (job_task job) (DB_MANAGER g)) as [task|]; simpl;
    [|split; [done | reflexivity]].
  destruct (store_update _ _ (DB_MANAGER g)) as [db|e] eqn:Hup; simpl;
    (split; [done|]); [|reflexivity].
  split; [|done]. intros m. simpl. eapply has_task_update, Hup.
Qed.

Lemma run_pending_step now due g :
  run_pending now due g = (Ok (), state_after (run_pending now due) g) ∧
  rows_step g (state_after (run_pending now due) g).
Proof.
  unfold run_pending. run_monad.
  generalize (filter (λ j, due j = true) (jobs (schedule g))). intros js.
  revert g. induction js as [|job js IH]; intros g; simpl.
  - split; [done | reflexivity].
  - unfold mbind, M_bind.
    destruct (run_job_step now job g) as [Hrun Hstep].
    rewrite Hrun. destruct (IH (state_after (run_job now job) g)) as [? ?].
    split; [done|]. by etrans.
Qed.

Lemma run_scheduler_step ticks g :
  run_scheduler ticks g = (Ok (), state_after (run_scheduler ticks) g) ∧
  rows_step g (state_after (run_scheduler ticks) g).
Proof.
  revert g. induction ticks as [|[now due] ticks IH]; intros g; simpl.
  - split; [done | reflexivity].
  - run_monad. destruct (SCHEDULER_RUNNING g); simpl;
      [|split; [done | reflexivity]].
    destruct (run_pending_step now due g) as [Hrun Hstep].
    unfold state_after in *. rewrite Hrun.
    destruct (IH (run_pending now due g).2) as [? ?].
    split; [done|]. by etrans.
Qed.

(** While the flag is off the loop of [run_scheduler] does not run. *)
Lemma run_scheduler_not_running ticks g :
  SCHEDULER_RUNNING g = false → run_scheduler ticks g = (Ok (), g).
Proof.
  intros Hrun. destruct ticks as [|[now due] ticks]; [done|].
  simpl. run_monad. by rewrite Hrun.
Qed.

(** While the flag is on a round of the loop runs the jobs that are due. *)
Lemma run_scheduler_running now due ticks g :
  SCHEDULER_RUNNING g = true →
  run_scheduler ((now, due) :: ticks) g =
    (run_pending now due ;; run_scheduler ticks) g.
Proof. intros Hrun. simpl. run_monad. by rewrite Hrun. Qed.

Lemma foldlM_steps {A B} (R : relation Globals) `{!PreOrder R}
    (body : B → A → M B) (xs : list A) :
  (∀ acc x g, R g (state_after (body acc x) g)) →
  ∀ acc g, R g (state_after (foldlM body acc xs) g).
Proof.
  intros Hbody. induction xs as [|x rest IH]; intros acc g.
  - reflexivity.
  - specialize (Hbody acc x g). unfold state_after in *. simpl.
    unfold mbind, M_bind. destruct (body acc x g) as [[acc'|e] g1]; simpl in *.
    + etrans; [exact Hbody | apply IH].
    + exact Hbody.
Qed.

Lemma entries_have_rows_step g g' :
  (∀ m, has_task m (DB_MANAGER g') = has_task m (DB_MANAGER g)) →
  SCHEDULED_JOBS g' = SCHEDULED_JOBS g →
  entries_have_rows g → entries_have_rows g'.
Proof.
  intros Hnames Hreg Hinv n. rewrite Hnames, Hreg. apply Hinv.
Qed.

Lemma stop_task_keeps_rows n g :
  entries_have_rows g → entries_have_rows (state_after (stop_task n) g).
Proof.
  unfold state_after.
  destruct (stop_task_spec n g) as (r & g' & -> & _ & _ & Hreg & _ & Hnames).
  by apply entries_have_rows_step.
Qed.

Lemma delete_task_keeps_rows n g :
  entries_have_rows g → entries_have_rows (state_after (delete_task n) g).
Proof.
  intros Hinv. unfold state_after.
  destruct (has_task n (DB_MANAGER g)) eqn:Hrow.
  - destruct (delete_task_row n g Hrow)
      as (r & g' & -> & _ & _ & Hnone & Hnames & Hreg).
    simpl. intros m Hm.
    assert (m ≠ n) as Hne by (intros ->; rewrite Hnone in Hm; by destruct Hm).
    rewrite Hnames by done. apply Hinv. by rewrite <- Hreg.
  - destruct (delete_task_no_row n g Hrow) as (g' & -> & Hreg & Hnames).
    by apply (entries_have_rows_step g).
Qed.

Section Facade.
Context `{Collaborators}.

Lemma start_if_stopped_step n message task g :
  engine_step g (state_after (start_if_stopped n message task) g).
Proof.
  unfold start_if_stopped. case_decide; [|reflexivity].
  pose proof (schedule_here_step task g) as Hstep.
  unfold state_after in *. unfold mbind, M_bind.
  by destruct (schedule_here task g) as [[job|e] g'].
Qed.

(** [start_task] always returns; apart from setting the flag it only
    registers jobs. *)
Lemma start_task_spec n g :
  ∃ r g',
    start_task n g = (Ok r, g') ∧
    SCHEDULER_RUNNING g' = true ∧
    engine_step (with_running true g) g'.
Proof.
  unfold start_task. run_monad.
  destruct (ensure_running_spec g) as (g1 & -> & Hrun & Hstep). simpl.
  pose proof (foldlM_steps engine_step (start_if_stopped n)
                (store_load [by_name n] (DB_MANAGER g1))
                (start_if_stopped_step n) "" g1) as Hloop.
  unfold state_after in Hloop.
  destruct (foldlM _ _ _ g1) as [[message|e] g2]; simpl in *;
    eexists _, _; (split; [done|]);
    (split; [destruct Hloop as (_&_&_&->&_); done | by etrans]).
Qed.

Lemma create_task_try_duplicate task g :
  has_task (name task) (DB_MANAGER g) = true →
  create_task_try task g = (Raise DuplicateNameError, g).
Proof.
  intros Hrow. unfold create_task_try. run_monad.
  unfold store_create. by rewrite Hrow.
Qed.

(** A request that decodes makes [create_task] return. *)
Lemma create_task_decodable task_str task g :
  base64decode_obj task_str = Some task →
  ∃ r, outcome (create_task task_str) g = Ok r.
Proof.
  intros Hdec. unfold create_task. run_monad.
  destruct (ensure_running_spec g) as (g1 & -> & _). rewrite Hdec.
  destruct (create_task_try task g1) as [[r|e] g2]; simpl; [eauto|].
  destruct (stop_task_spec (name task) g2) as (r & g3 & Hstop & _).
  unfold delete_task. run_monad.
  destruct (delete_task_try (name task) g2) as [[r'|e'] g4]; simpl; eauto.
Qed.

(** [create_task] with a name that is taken: a 400 that names the
    store's error, and the handler has removed the row that was there
    and its entry of the dict. *)
Lemma create_task_duplicate task_str task g :
  base64decode_obj task_str = Some task →
  has_task (name task) (DB_MANAGER g) = true →
  ∃ g',
    create_task task_str g =
      (Ok (Response.mk 400
             ("Failure. Could not create task due to "
              +:+ exn_str DuplicateNameError +:+ ".") empty_data), g') ∧
    has_task (name task) (DB_MANAGER g') = false ∧
    SCHEDULED_JOBS g' !! name task = None.
Proof.
  intros Hdec Hrow. unfold create_task. run_monad.
  destruct (ensure_running_spec g) as (g1 & -> & _ & Hdb & _).
  simpl in Hdb. rewrite Hdec.
  rewrite create_task_try_duplicate by (by rewrite Hdb).
  destruct (delete_task_row (name task) g1) as (r & g' & -> & _ & ? & ? & _);
    [by rewrite Hdb|].
  simpl. eauto.
Qed.

Lemma create_task_keeps_rows task_str g :
  entries_have_rows g →
  entries_have_rows (state_after (create_task task_str) g).
Proof.
  intros Hinv. unfold create_task. run_monad.
  destruct (ensure_running_spec g) as (g1 & -> & _ & Hdb & _ & _ & _ & Hreg & _).
  simpl in Hdb, Hreg.
  assert (entries_have_rows g1) as Hinv1.
  { apply (entries_have_rows_step g); [|done..]. intros m. by rewrite Hdb. }
  destruct (base64decode_obj task_str) as [task|]; [|done].
  unfold create_task_try. run_monad. unfold store_create.
  destruct (has_task (name task) (DB_MANAGER g1)) eqn:Hrow; simpl.
  { pose proof (delete_task_keeps_rows (name task) g1 Hinv1) as Hdel.
    unfold state_after in Hdel.
    by destruct (delete_task (name task) g1) as [[r|e] g2]. }
  set (g2 := with_db (DB_MANAGER g1 ++ [task]) g1).
  assert (∀ m, has_task m (DB_MANAGER g1) = true →
               has_task m (DB_MANAGER g2) = true) as Hgrow.
  { intros m. rewrite !has_task_true. simpl. rewrite fmap_app.
    intros Hm. apply elem_of_app. by left. }
  pose proof (schedule_here_step task g2) as (Hdb2 & _ & _ & _ & Hreg2 & _).
  unfold state_after in *.
  destruct (schedule_here task g2) as [[job|e] g3]; simpl in *.
  - intros m. simpl. rewrite Hdb2.
    destruct (decide (name task = m)) as [<-|Hne].
    + intros _. apply has_task_true. rewrite fmap_app.
      apply elem_of_app. right. simpl. left.
    + rewrite lookup_insert_ne, Hreg2 by done. intros Hm.
      apply Hgrow, Hinv1, Hm.
  - assert (entries_have_rows g3) as Hinv3.
    { intros m. rewrite Hdb2, Hreg2. intros Hm. apply Hgrow, Hinv1, Hm. }
    pose proof (delete_task_keeps_rows (name task) g3 Hinv3) as Hdel.
    unfold state_after in Hdel.
    by destruct (delete_task (name task) g3) as [[r|e'] g4].
Qed.

Lemma exec_keeps_rows c g :
  entries_have_rows g → entries_have_rows (exec c g).
Proof.
  intros Hinv. destruct c; simpl.
  - by apply create_task_keeps_rows.
  - by apply delete_task_keeps_rows.
  - unfold state_after.
    by destruct (read_task_spec task_name fields g) as (r & ->).
  - unfold state_after. by destruct (read_all_tasks_spec g) as (r & ->).
  - destruct (update_task_spec task_name new_values g)
      as (r & _ & Hnames & _ & _ & _ & Hreg & _).
    by apply (entries_have_rows_step g).
  - by apply stop_task_keeps_rows.
  - unfold state_after.
    destruct (start_task_spec task_name g)
      as (r & g' & -> & _ & Hdb & _ & _ & _ & Hreg & _).
    simpl in *.
    apply (entries_have_rows_step g); [|done..]. intros m. by rewrite Hdb.
  - unfold state_after.
    destruct (start_scheduler_spec g)
      as (r & g' & -> & _ & Hdb & _ & _ & _ & Hreg & _).
    simpl in *.
    apply (entries_have_rows_step g); [|done..]. intros m. by rewrite Hdb.
  - unfold state_after, stop_scheduler. run_monad.
    by destruct (SCHEDULER_RUNNING g).
  - unfold start_tasks, state_after. run_monad.
    destruct (ensure_running_spec g)
      as (g1 & -> & _ & Hdb & _ & _ & _ & Hreg & _).
    pose proof (schedule_saved_tasks_step g1)
      as (Hdb2 & _ & _ & _ & Hreg2 & _).
    unfold state_after in *.
    apply (entries_have_rows_step g); [| |done].
    + intros m. rewrite Hdb2. by rewrite Hdb.
    + by rewrite Hreg2.
  - destruct (run_scheduler_step ticks g) as (_ & Hnames & _ & _ & _ & Hreg & _).
    by apply (entries_have_rows_step g).
Qed.
End Facade.

Lemma find_task_stopped_rows n db :
  find_task n (stopped_rows n db) =
    set_values [new_status stopped] <$> find_task n db.
Proof.
  unfold find_task, stopped_rows.
  induction db as [|task db IH]; [done|].
  rewrite fmap_cons, !filter_cons.
  destruct (decide (named n task)) as [Hn|Hn].
  - rewrite decide_True; [done|]. unfold named in *. by simpl.
  - by rewrite decide_False.
Qed.

Lemma status_of_stopped_rows n g :
  has_task n (DB_MANAGER g) = true →
  status <$> find_task n (stopped_rows n (DB_MANAGER g)) = Some stopped.
Proof.
  intros Hrow. rewrite find_task_stopped_rows.
  by destruct (find_task_present _ _ Hrow) as (task & -> & _).
Qed.

(** ** The claims *)

(** C1 (defect of the code).  Creating a task whose name is taken does
    report the store's [DuplicateNameError] as a failure, status 400; but
    the handler of [create_task] calls [delete_task] on that name, so the
    task that was there loses its row in the store and its entry in the
    dict of scheduled jobs. *)
Theorem create_task_duplicate_removes_existing `{Collaborators}
    task_str task g :
  base64decode_obj task_str = Some task →
  has_task (name task) (DB_MANAGER g) = true →
  outcome (create_task task_str) g =
    Ok (Response.mk 400
          "Failure. Could not create task due to DuplicateNameError."
          empty_data) ∧
  has_task (name task) (DB_MANAGER (state_after (create_task task_str) g))
    = false ∧
  SCHEDULED_JOBS (state_after (create_task task_str) g) !! name task = None.
Proof.
  intros Hdec Hrow. unfold outcome, state_after.
  by destruct (create_task_duplicate _ _ g Hdec Hrow) as (g' & -> & ? & ?).
Qed.

Lemma create_task_duplicate_removes_existing_witness :
  status_of "A" serving_A = Some scheduled ∧
  SCHEDULED_JOBS serving_A !! "A" =
    Some (mkJob 0 "A" hours 24 "127.0.0.1" 8003) ∧
  outcome (@create_task sample "A") serving_A =
    Ok (Response.mk 400
          "Failure. Could not create task due to DuplicateNameError."
          empty_data) ∧
  has_task "A" (DB_MANAGER (state_after (@create_task sample "A") serving_A))
    = false ∧
  SCHEDULED_JOBS (state_after (@create_task sample "A") serving_A) !! "A"
    = None.
Proof.
  split; [by vm_compute|]. split; [by vm_compute|].
  apply (@create_task_duplicate_removes_existing sample "A"
           (sample_task "A" scheduled) serving_A); by vm_compute.
Defined.

(** C2 (as stated, refuted).  Two states that a process reaches, in
    which the dict has an entry for A although the claimed condition
    fails: after [create_task] and [stop_scheduler] the flag is off, and
    after [create_task] and [update_task] with a stopped status the task
    is not scheduled. *)
Lemma entry_outlives_flag_and_status :
  (@reachable sample (@exec sample call_stop_scheduler serving_A) ∧
   ¬ entry_iff_scheduled_and_running
       (@exec sample call_stop_scheduler serving_A)) ∧
  (@reachable sample
     (@exec sample (call_update_task "A" [new_status stopped]) serving_A) ∧
   ¬ entry_iff_scheduled_and_running
       (@exec sample (call_update_task "A" [new_status stopped]) serving_A)).
Proof.
  assert (@reachable sample serving_A) as Hreach.
  { change serving_A
      with (@exec sample (call_create_task "A") (boot [] "127.0.0.1" 8003)).
    apply reachable_call, reachable_boot. }
  split; (split; [by apply reachable_call|]); intros Hiff;
    destruct (Hiff "A") as [Hentry _];
    destruct Hentry as [Hstatus Hflag];
    try (apply (mk_is_Some _ (mkJob 0 "A" hours 24 "127.0.0.1" 8003));
         by vm_compute);
    vm_compute in Hstatus, Hflag;
    first [discriminate Hflag | discriminate Hstatus].
Qed.

(** C2 (amended).  In every state that a process reaches by calls of the
    endpoints, of the coordinator and by rounds of the tick loop, a name
    has an entry in the dict of scheduled jobs only if it has a row in
    the store. *)
Theorem reachable_entries_have_rows `{Collaborators} g :
  reachable g → entries_have_rows g.
Proof.
  induction 1 as [db host port|c g _ IH].
  - intros n. simpl. rewrite lookup_empty. by intros [? ?].
  - by apply exec_keeps_rows.
Qed.

Lemma reachable_entries_have_rows_witness :
  entries_have_rows (@exec sample call_stop_scheduler serving_A).
Proof.
  apply (@reachable_entries_have_rows sample).
  apply reachable_call.
  change serving_A
    with (@exec sample (call_create_task "A") (boot [] "127.0.0.1" 8003)).
  apply reachable_call, reachable_boot.
Defined.

(** C3 (defect of the code).  [start_scheduler] never writes the dict of
    scheduled jobs: recovery registers the scheduled tasks with the tick
    engine and drops the handles.  On a restarted process whose store has
    A and C scheduled and B stopped, the tick engine ends with jobs for A
    and C and the dict ends empty. *)
Theorem recovery_leaves_the_dict_empty :
  (∀ (collaborators : Collaborators) g,
     SCHEDULED_JOBS (state_after (@start_scheduler collaborators) g)
     = SCHEDULED_JOBS g) ∧
  SCHEDULER_RUNNING restarted = false ∧
  status_of "A" restarted = Some scheduled ∧
  status_of "B" restarted = Some stopped ∧
  status_of "C" restarted = Some scheduled ∧
  SCHEDULER_RUNNING recovered = true ∧
  job_task <$> jobs (schedule recovered) = ["A"; "C"] ∧
  SCHEDULED_JOBS recovered = ∅.
Proof.
  split; [|by vm_compute].
  intros collaborators g. unfold state_after.
  destruct (start_scheduler_spec g) as (r & g' & -> & _ & _ & _ & _ & _ & Hreg & _).
  exact Hreg.
Qed.

(** C4 (defect of the code).  [start_task] writes neither the store nor
    the dict of scheduled jobs.  After [stop_task] and [start_task] on
    task A the status in the store is still stopped, the tick engine
    holds the new job, and the dict still holds the handle of the job
    that [stop_task] cancelled. *)
Theorem start_task_restores_nothing :
  (∀ (collaborators : Collaborators) n g,
     DB_MANAGER (state_after (@start_task collaborators n) g) = DB_MANAGER g ∧
     SCHEDULED_JOBS (state_after (@start_task collaborators n) g)
     = SCHEDULED_JOBS g) ∧
  let g1 := state_after (stop_task "A") serving_A in
  let g2 := state_after (@start_task sample "A") g1 in
  status_of "A" serving_A = Some scheduled ∧
  status_of "A" g1 = Some stopped ∧
  outcome (@start_task sample "A") g1 =
    Ok (Response.mk 200 "Started task 'A'. " None) ∧
  status_of "A" g2 = Some stopped ∧
  jobs (schedule g2) = [mkJob 1 "A" hours 24 "127.0.0.1" 8003] ∧
  SCHEDULED_JOBS g2 !! "A" = Some (mkJob 0 "A" hours 24 "127.0.0.1" 8003).
Proof.
  split; [|by vm_compute].
  intros collaborators n g. unfold state_after.
  destruct (start_task_spec n g) as (r & g' & -> & _ & Hdb & _ & _ & _ & Hreg & _).
  by split.
Qed.

(** C5 (defect of the code).  When the request does not decode,
    [create_task] does not return a failure result: its [except] clause
    reads the unbound local [task] and the [UnboundLocalError] leaves
    the endpoint. *)
Theorem create_task_raises_when_undecodable `{Collaborators} task_str g :
  base64decode_obj task_str = None →
  outcome (create_task task_str) g = Raise (UnboundLocalError "task").
Proof.
  intros Hdec. unfold create_task. run_monad.
  destruct (ensure_running_spec g) as (g1 & -> & _).
  by rewrite Hdec.
Qed.

Lemma create_task_raises_when_undecodable_witness :
  outcome (@create_task sample "") restarted =
    Raise (UnboundLocalError "task").
Proof.
  apply (@create_task_raises_when_undecodable sample "" restarted).
  reflexivity.
Defined.

(** Every other endpoint returns a response on every input, and so does
    [create_task] on a request that decodes. *)
Lemma other_endpoints_return `{Collaborators} n fields new_values g :
  (∃ r, outcome (delete_task n) g = Ok r) ∧
  (∃ r, outcome (read_task n fields) g = Ok r) ∧
  (∃ r, outcome read_all_tasks g = Ok r) ∧
  (∃ r, outcome (update_task n new_values) g = Ok r) ∧
  (∃ r, outcome (stop_task n) g = Ok r) ∧
  (∃ r, outcome (start_task n) g = Ok r) ∧
  (∃ r, outcome start_scheduler g = Ok r) ∧
  (∃ r, outcome stop_scheduler g = Ok r).
Proof.
  unfold outcome. repeat split.
  - destruct (has_task n (DB_MANAGER g)) eqn:Hrow.
    + destruct (delete_task_row n g Hrow) as (r & g' & -> & _). eauto.
    + destruct (delete_task_no_row n g Hrow) as (g' & -> & _). eauto.
  - destruct (read_task_spec n fields g) as (r & ->). eauto.
  - destruct (read_all_tasks_spec g) as (r & ->). eauto.
  - destruct (update_task_spec n new_values g) as (r & Hr & _). eauto.
  - destruct (stop_task_spec n g) as (r & g' & -> & _). eauto.
  - destruct (start_task_spec n g) as (r & g' & -> & _). eauto.
  - destruct (start_scheduler_spec g) as (r & g' & -> & _). eauto.
  - destruct (SCHEDULER_RUNNING g) eqn:Hrun.
    + rewrite stop_scheduler_running by done. eauto.
    + rewrite stop_scheduler_not_running by done. eauto.
Qed.

(** C6 (defect of the code).  For a name that has no row, the store's
    [NotFoundError] does end the [try] block of [delete_task] and the
    status of the response is 400; but the message, assigned once more
    after the [try] statement, is the success message, so the response
    does not carry the error.  (The first half of the claim holds: see
    [read_task_after_delete].) *)
Theorem delete_task_unknown_name n g :
  has_task n (DB_MANAGER g) = false →
  outcome (delete_task_try n) g = Raise NotFoundError ∧
  outcome (delete_task n) g =
    Ok (Response.mk 400 ("Success. Deleted task " +:+ n +:+ ".") empty_data).
Proof.
  intros Hrow. split.
  - unfold outcome, delete_task_try.
    destruct (stop_task_spec n g) as (r & g1 & Hstop & _ & _ & _ & _ & Hnames).
    run_monad. rewrite Hstop.
    by rewrite (store_delete_absent n (DB_MANAGER g1)) by (by rewrite Hnames).
  - unfold outcome.
    by destruct (delete_task_no_row n g Hrow) as (g' & -> & _).
Qed.

Lemma delete_task_unknown_name_witness :
  outcome (delete_task_try "Z") recovered = Raise NotFoundError ∧
  outcome (delete_task "Z") recovered =
    Ok (Response.mk 400 "Success. Deleted task Z." empty_data).
Proof. apply (delete_task_unknown_name "Z" recovered). reflexivity. Defined.

(** C7 (as stated, refuted).  Task A has a row in the recovered process
    but no entry in the dict; [stop_task] skips it, so its status is
    still scheduled after two calls. *)
Lemma stop_task_skips_unregistered :
  has_task "A" (DB_MANAGER recovered) = true ∧
  status_of "A"
    (state_after (stop_task "A") (state_after (stop_task "A") recovered))
  = Some scheduled ∧
  ¬ stopped_twice "A" recovered.
Proof.
  split; [by vm_compute|]. split; [by vm_compute|].
  intros (Hfirst & _). vm_compute in Hfirst. discriminate Hfirst.
Qed.

(** C7 (amended).  For every name that has a row in the store and an
    entry in the dict of scheduled jobs, two calls of [stop_task] in a
    row leave the status stopped both times and the second call reports
    success. *)
Theorem stop_task_twice n job g :
  has_task n (DB_MANAGER g) = true →
  SCHEDULED_JOBS g !! n = Some job →
  stopped_twice n g.
Proof.
  intros Hrow Hjob. unfold stopped_twice, state_after, outcome, status_of.
  rewrite (stop_task_entry_row _ _ _ Hjob Hrow). simpl.
  set (g1 := with_db _ _).
  assert (has_task n (DB_MANAGER g1) = true) as Hrow1
    by (simpl; by rewrite has_task_stopped_rows).
  assert (SCHEDULED_JOBS g1 !! n = Some job) as Hjob1 by done.
  rewrite (stop_task_entry_row _ _ _ Hjob1 Hrow1). simpl.
  split; [by apply status_of_stopped_rows|].
  split; [|done].
  change (stopped_rows n (DB_MANAGER g)) with (DB_MANAGER g1).
  by apply status_of_stopped_rows.
Qed.

Lemma stop_task_twice_witness : stopped_twice "A" serving_A.
Proof.
  apply (stop_task_twice "A" (mkJob 0 "A" hours 24 "127.0.0.1" 8003)
           serving_A); by vm_compute.
Defined.

(** C8.  With the scheduler running, [stop_scheduler] changes the flag
    and nothing else: the dict of scheduled jobs and the jobs of the tick
    engine are as before.  While the flag is off the loop does not run.
    A later [start_scheduler] sets the flag again and leaves the dict as
    it was; every name that had a registration still has one, and the
    loop runs the due jobs again. *)
Theorem stop_scheduler_clears_only_the_flag `{Collaborators}
    g now due ticks :
  SCHEDULER_RUNNING g = true →
  stop_scheduler g =
    (Ok (Response.mk 200 "Scheduler stopped." empty_data),
     with_running false g) ∧
  SCHEDULED_JOBS (with_running false g) = SCHEDULED_JOBS g ∧
  schedule (with_running false g) = schedule g ∧
  DB_MANAGER (with_running false g) = DB_MANAGER g ∧
  run_scheduler ((now, due) :: ticks) (with_running false g) =
    (Ok (), with_running false g) ∧
  ∃ r g',
    start_scheduler (with_running false g) = (Ok r, g') ∧
    SCHEDULER_RUNNING g' = true ∧
    SCHEDULED_JOBS g' = SCHEDULED_JOBS g ∧
    (∀ n, registered n (schedule g) → registered n (schedule g')) ∧
    run_scheduler ((now, due) :: ticks) g' =
      (run_pending now due ;; run_scheduler ticks) g'.
Proof.
  intros Hrun. split; [by apply stop_scheduler_running|].
  do 3 (split; [done|]).
  split; [by apply run_scheduler_not_running|].
  destruct (start_scheduler_spec (with_running false g))
    as (r & g' & Hstart & Hrun' & _ & _ & _ & _ & Hreg & Hjobs).
  exists r, g'. split; [done|]. split; [done|]. split; [done|].
  split; [exact Hjobs|]. by apply run_scheduler_running.
Qed.

Lemma stop_scheduler_clears_only_the_flag_witness :
  stop_scheduler serving_A =
    (Ok (Response.mk 200 "Scheduler stopped." empty_data),
     with_running false serving_A) ∧
  SCHEDULED_JOBS (with_running false serving_A) = SCHEDULED_JOBS serving_A ∧
  schedule (with_running false serving_A) = schedule serving_A ∧
  DB_MANAGER (with_running false serving_A) = DB_MANAGER serving_A ∧
  run_scheduler [(0, λ _, true)] (with_running false serving_A) =
    (Ok (), with_running false serving_A) ∧
  ∃ r g',
    @start_scheduler sample (with_running false serving_A) = (Ok r, g') ∧
    SCHEDULER_RUNNING g' = true ∧
    SCHEDULED_JOBS g' = SCHEDULED_JOBS serving_A ∧
    (∀ n, registered n (schedule serving_A) → registered n (schedule g')) ∧
    run_scheduler [(0, λ _, true)] g' =
      (run_pending 0 (λ _, true) ;; run_scheduler []) g'.
Proof.
  apply (@stop_scheduler_clears_only_the_flag sample serving_A 0
           (λ _, true) []).
  reflexivity.
Defined.

(** C9.  For a name that has a row in the store and no entry in the dict
    of scheduled jobs, [delete_task] removes the row and changes nothing
    else, and returns status 400: the [try] block ends in the [KeyError]
    of the [del] statement, after the store has deleted the row. *)
Theorem delete_task_without_entry n g :
  has_task n (DB_MANAGER g) = true →
  SCHEDULED_JOBS g !! n = None →
  delete_task_try n g =
    (Raise (KeyError n),
     with_db (filter (λ task, ¬ named n task) (DB_MANAGER g)) g) ∧
  has_task n (filter (λ task, ¬ named n task) (DB_MANAGER g)) = false ∧
  delete_task n g =
    (Ok (Response.mk 400 (deleted_message n) empty_data),
     with_db (filter (λ task, ¬ named n task) (DB_MANAGER g)) g).
Proof.
  intros Hrow Hjob.
  assert (delete_task_try n g =
            (Raise (KeyError n),
             with_db (filter (λ task, ¬ named n task) (DB_MANAGER g)) g))
    as Htry.
  { unfold delete_task_try. run_monad.
    rewrite (stop_task_no_entry _ _ Hjob).
    rewrite (store_delete_present _ _ Hrow). simpl. by rewrite Hjob. }
  split; [done|]. split.
  - eapply has_task_delete_same. by apply store_delete_present.
  - unfold delete_task. run_monad. by rewrite Htry.
Qed.

Lemma delete_task_without_entry_witness :
  delete_task_try "A" recovered =
    (Raise (KeyError "A"),
     with_db (filter (λ task, ¬ named "A" task) (DB_MANAGER recovered))
       recovered) ∧
  has_task "A" (filter (λ task, ¬ named "A" task) (DB_MANAGER recovered))
    = false ∧
  delete_task "A" recovered =
    (Ok (Response.mk 400 (deleted_message "A") empty_data),
     with_db (filter (λ task, ¬ named "A" task) (DB_MANAGER recovered))
       recovered).
Proof. apply (delete_task_without_entry "A" recovered); by vm_compute. Defined.

(** A dict entry whose row is missing: the update in [stop_task] fails. *)
Example stop_task_failure_keeps_success_message :
  outcome (stop_task "Z")
    (mkGlobals [] "127.0.0.1" 8003 true
       {["Z" := mkJob 0 "Z" hours 24 "127.0.0.1" 8003]}
       (mkScheduler [mkJob 0 "Z" hours 24 "127.0.0.1" 8003] 1))
  = Ok (Response.mk 400 "Success. Task Z has been stopped." empty_data).
Proof. by vm_compute. Qed.

Example delete_task_failure_keeps_success_message :
  outcome (delete_task "A") recovered
  = Ok (Response.mk 400 "Success. Deleted task A." empty_data).
Proof. by vm_compute. Qed.

(** C10.  On every input [stop_task] and [delete_task] return a response
    whose message is the success message, whether its status is 200 or
    400: the message is assigned once more after the [try] statement. *)
Theorem success_message_whatever_the_status n g :
  (∃ r, outcome (stop_task n) g = Ok r ∧
        Response.message r = "Success. Task " +:+ n +:+ " has been stopped." ∧
        (Response.status r = 200 ∨ Response.status r = 400)) ∧
  (∃ r, outcome (delete_task n) g = Ok r ∧
        Response.message r = "Success. Deleted task " +:+ n +:+ "." ∧
        (Response.status r = 200 ∨ Response.status r = 400)).
Proof.
  unfold outcome. split.
  - destruct (stop_task_spec n g) as (r & g' & -> & Hmsg & Hst & _).
    by exists r.
  - destruct (delete_task_returns n g) as (r & g' & -> & Hmsg & Hst).
    by exists r.
Qed.

(** ** Further properties of the endpoints *)

Lemma store_load_all db : store_load [] db = db.
Proof.
  unfold store_load. induction db as [|task db IH]; [done|].
  rewrite filter_cons, IH. by case_decide.
Qed.

(** A map that keeps names and leaves the rows of other names alone
    commutes with the lookup of a row. *)
Lemma find_task_fmap (f : ETLTask → ETLTask) n db :
  (∀ task, name (f task) = name task) →
  find_task n (f <$> db) = f <$> find_task n db.
Proof.
  intros Hname. unfold find_task.
  induction db as [|task db IH]; [done|].
  rewrite fmap_cons, !filter_cons.
  assert (named n (f task) ↔ named n task) as Hiff
    by (unfold named; by rewrite Hname).
  repeat case_decide; tauto.
Qed.

Lemma find_task_store_update n new_values db db' m :
  store_update n new_values db = Ok db' → m ≠ n →
  find_task m db' = find_task m db.
Proof.
  unfold store_update. repeat case_match; try done. intros [= <-] Hne.
  rewrite find_task_fmap.
  - destruct (find_task m db) as [task|] eqn:Hfind; [|done]. simpl.
    assert (name task = m) as Hm.
    { unfold find_task in Hfind.
      destruct (filter (named m) db) as [|t rest] eqn:Hf; [done|].
      injection Hfind as ->.
      assert (task ∈ filter (named m) db) as Hin by (rewrite Hf; left).
      by apply list_elem_of_filter in Hin as [? _]. }
    rewrite decide_False; [done|]. unfold named. congruence.
  - intros task. case_decide; [apply set_values_name | done].
Qed.

Lemma start_scheduler_already_running `{Collaborators} g :
  SCHEDULER_RUNNING g = true →
  start_scheduler g =
    (Ok (Response.mk 200 "Scheduler is already running." empty_data), g).
Proof. intros Hrun. unfold start_scheduler. run_monad. by rewrite Hrun. Qed.

(** X1.  [start_scheduler] is idempotent: whatever the first call found
    and whatever it answered, a second call right after it reports that
    the scheduler is already running and changes nothing, so recovery
    is not run twice. *)
Theorem start_scheduler_idempotent `{Collaborators} g :
  start_scheduler (state_after start_scheduler g) =
    (Ok (Response.mk 200 "Scheduler is already running." empty_data),
     state_after start_scheduler g).
Proof.
  apply start_scheduler_already_running. unfold state_after.
  by destruct (start_scheduler_spec g) as (r & g' & -> & Hrun & _).
Qed.

(** X2.  After [stop_scheduler] the flag is off and nothing else has
    changed, whatever the flag was; a second call reports that the
    scheduler is not running and changes nothing. *)
Theorem stop_scheduler_idempotent g :
  state_after stop_scheduler g = with_running false g ∧
  stop_scheduler (state_after stop_scheduler g) =
    (Ok (Response.mk 200 "Scheduler is not running." empty_data),
     state_after stop_scheduler g).
Proof.
  assert (state_after stop_scheduler g = with_running false g) as Hstate.
  { unfold state_after. destruct (SCHEDULER_RUNNING g) eqn:Hrun.
    - by rewrite stop_scheduler_running.
    - rewrite stop_scheduler_not_running by done.
      destruct g; simpl in *. by subst. }
  split; [done|]. rewrite Hstate. by apply stop_scheduler_not_running.
Qed.

(** X3.  [update_task] never touches the scheduling: the flag, the dict
    of scheduled jobs and the jobs of the tick engine are as before, no
    row appears or disappears, and the rows of other names are as they
    were. *)
Theorem update_task_leaves_scheduling n new_values g :
  let g' := state_after (update_task n new_values) g in
  SCHEDULER_RUNNING g' = SCHEDULER_RUNNING g ∧
  SCHEDULED_JOBS g' = SCHEDULED_JOBS g ∧
  schedule g' = schedule g ∧
  (∀ m, has_task m (DB_MANAGER g') = has_task m (DB_MANAGER g)) ∧
  (∀ m, m ≠ n → find_task m (DB_MANAGER g') = find_task m (DB_MANAGER g)).
Proof.
  simpl. destruct (update_task_spec n new_values g)
    as (r & _ & Hnames & _ & _ & Hrun & Hreg & Hsch).
  do 4 (split; [done|]). intros m Hne.
  unfold state_after, update_task. run_monad.
  destruct (store_update n new_values (DB_MANAGER g)) as [db|e] eqn:Hup;
    simpl; [|done].
  by eapply find_task_store_update.
Qed.

(** The two read endpoints change nothing, whether they succeed or fail. *)
Lemma reads_change_nothing n fields g :
  state_after (read_task n fields) g = g ∧
  state_after read_all_tasks g = g.
Proof.
  unfold state_after. split.
  - by destruct (read_task_spec n fields g) as (r & ->).
  - by destruct (read_all_tasks_spec g) as (r & ->).
Qed.

(** X4.  [read_all_tasks] always succeeds and lists every row of the
    store, in the order of the store, one summary of seven keys each. *)
Theorem read_all_tasks_lists_every_row g :
  outcome read_all_tasks g =
    Ok (Response.mk 200 "Success. Retrieved tasks."
          (Some (DataList (summary <$> DB_MANAGER g)))) ∧
  (∀ row, row ∈ summary <$> DB_MANAGER g →
     row.*1 = ["name"; "status"; "num_runs"; "repeat_time_unit";
               "repeat_interval"; "time_run_last_start";
               "time_run_last_end"]).
Proof.
  split.
  - unfold outcome, read_all_tasks. run_monad. by rewrite store_load_all.
  - intros row. rewrite list_elem_of_fmap. by intros (task & -> & _).
Qed.

(** X5.  With the default [fields = ''], [read_task] of a name that has
    a row returns every one of the ten fields of that row. *)
Theorem read_task_default_fields n g :
  has_task n (DB_MANAGER g) = true →
  ∃ task,
    find_task n (DB_MANAGER g) = Some task ∧ name task = n ∧
    outcome (read_task n "") g =
      Ok (Response.mk 200 ("Success. Retrieved task " +:+ n +:+ ".")
            (Some (DataRow (full_row task)))).
Proof.
  intros Hrow. destruct (find_task_present _ _ Hrow) as (task & Hfind & Hname).
  exists task. split; [done|]. split; [done|].
  unfold outcome, read_task. run_monad. unfold store_read. by rewrite Hfind.
Qed.

Lemma read_task_default_fields_witness :
  ∃ task,
    find_task "A" (DB_MANAGER serving_A) = Some task ∧ name task = "A" ∧
    outcome (read_task "A" "") serving_A =
      Ok (Response.mk 200 "Success. Retrieved task A."
            (Some (DataRow (full_row task)))).
Proof. apply (read_task_default_fields "A" serving_A). reflexivity. Defined.

Lemma filter_named_absent n db :
  has_task n db = false → filter (named n) db = [].
Proof.
  intros Hrow. pose proof (find_task_absent _ _ Hrow) as Hfind.
  unfold find_task in Hfind. by destruct (filter (named n) db).
Qed.

Lemma filter_others_absent n (db : Store) :
  has_task n db = false → filter (λ task, ¬ named n task) db = db.
Proof.
  rewrite has_task_false. induction db as [|task db IH]; [done|].
  rewrite fmap_cons, not_elem_of_cons. intros [Hne Hrest].
  rewrite filter_cons, decide_True by (unfold named; congruence).
  by rewrite IH.
Qed.

Lemma filter_others_stopped_rows n db :
  filter (λ task, ¬ named n task) (stopped_rows n db)
  = filter (λ task, ¬ named n task) db.
Proof.
  unfold stopped_rows. induction db as [|task db IH]; [done|].
  rewrite fmap_cons, !filter_cons, IH.
  destruct (decide (named n task)) as [Hn|Hn].
  - rewrite !decide_False; [done | by intros [] |].
    unfold named in *. simpl. by intros [].
  - by rewrite !decide_True.
Qed.

Lemma find_task_new_row task db :
  has_task (name task) db = false →
  find_task (name task) (db ++ [task]) = Some task.
Proof.
  intros Hrow. unfold find_task.
  rewrite filter_app, (filter_named_absent _ _ Hrow). simpl.
  rewrite filter_cons, decide_True; done.
Qed.

Lemma cancel_removes job sch j :
  j ∈ jobs (cancel job sch) → job_id j ≠ job_id job.
Proof. unfold cancel. simpl. rewrite list_elem_of_filter. by intros [? _]. Qed.

Lemma delete_task_nothing_left n g :
  has_task n (DB_MANAGER g) = false →
  SCHEDULED_JOBS g !! n = None →
  delete_task n g =
    (Ok (Response.mk 400 (deleted_message n) empty_data), g).
Proof.
  intros Hrow Hjob. unfold delete_task, delete_task_try. run_monad.
  rewrite (stop_task_no_entry _ _ Hjob).
  by rewrite (store_delete_absent _ _ Hrow).
Qed.

Section Scheduling.
Context `{Collaborators}.

Lemma schedule_here_accepted task g :
  registers task = true →
  schedule_here task g =
    (Ok (job_for task g),
     with_schedule
       (mkScheduler
          (filter (λ j, job_task j ≠ name task) (jobs (schedule g))
           ++ [job_for task g])
          (S (next_id (schedule g)))) g).
Proof. intros Hacc. unfold schedule_here, task_schedule. by rewrite Hacc. Qed.

Lemma schedule_here_refused task g :
  registers task = false →
  schedule_here task g = (Raise SchedulingError, g).
Proof. intros Hacc. unfold schedule_here, task_schedule. by rewrite Hacc. Qed.

Lemma schedule_here_registered task g m :
  registers task = true →
  registered m (schedule (state_after (schedule_here task) g)) ↔
  registered m (schedule g) ∨ m = name task.
Proof.
  intros Hacc. unfold state_after. rewrite schedule_here_accepted by done.
  unfold registered. simpl. rewrite fmap_app, elem_of_app.
  rewrite !list_elem_of_fmap. simpl. split.
  - intros [(job & -> & Hin)|(job & -> & Hin)].
    + apply list_elem_of_filter in Hin as [_ Hin]. left. by exists job.
    + apply list_elem_of_singleton in Hin as ->. by right.
  - intros [(job & -> & Hin)| ->].
    + destruct (decide (job_task job = name task)) as [Heq|Hne].
      * right. exists (job_for task g). split; [done | left].
      * left. exists job. split; [done|]. by apply list_elem_of_filter.
    + right. exists (job_for task g). split; [done | left].
Qed.
End Scheduling.

Section Creation.
Context `{Collaborators}.

(** [create_task] of a fresh name that the tick engine accepts. *)
Lemma create_task_fresh task_str task g :
  base64decode_obj task_str = Some task →
  has_task (name task) (DB_MANAGER g) = false →
  registers task = true →
  ∃ job g',
    create_task task_str g =
      (Ok (Response.mk 200
             ("Success. Task created and scheduled " +:+ name task +:+ ".")
             empty_data), g') ∧
    DB_MANAGER g' = DB_MANAGER g ++ [task] ∧
    SCHEDULED_JOBS g' = <[name task := job]> (SCHEDULED_JOBS g) ∧
    job ∈ jobs (schedule g') ∧
    job_task job = name task ∧
    job_unit job = repeat_time_unit task ∧
    job_interval job = repeat_interval task ∧
    SCHEDULER_RUNNING g' = true.
Proof.
  intros Hdec Hrow Hacc. unfold create_task. run_monad.
  destruct (ensure_running_spec g)
    as (g1 & -> & Hrun & Hdb & _ & _ & _ & Hreg & _).
  simpl in Hdb, Hreg. rewrite Hdec.
  unfold create_task_try. run_monad. unfold store_create.
  rewrite Hdb, Hrow. simpl.
  rewrite schedule_here_accepted by done. simpl.
  exists (job_for task (with_db (DB_MANAGER g ++ [task]) g1)).
  eexists. split; [done|]. simpl.
  repeat split; try done.
  - by rewrite Hreg.
  - apply elem_of_app. right. left.
Qed.

(** [create_task] of a fresh name that the tick engine refuses. *)
Lemma create_task_refused task_str task g :
  base64decode_obj task_str = Some task →
  has_task (name task) (DB_MANAGER g) = false →
  SCHEDULED_JOBS g !! name task = None →
  registers task = false →
  ∃ r g',
    create_task task_str g = (Ok r, g') ∧
    Response.status r = 400 ∧
    DB_MANAGER g' = DB_MANAGER g ∧
    SCHEDULED_JOBS g' = SCHEDULED_JOBS g.
Proof.
  intros Hdec Hrow Hjob Hacc. unfold create_task. run_monad.
  destruct (ensure_running_spec g)
    as (g1 & -> & Hrun & Hdb & _ & _ & _ & Hreg & _).
  simpl in Hdb, Hreg. rewrite Hdec.
  unfold create_task_try. run_monad. unfold store_create.
  rewrite Hdb, Hrow. simpl.
  rewrite schedule_here_refused by done. simpl.
  unfold delete_task, delete_task_try. run_monad.
  rewrite stop_task_no_entry by (simpl; by rewrite Hreg). simpl.
  rewrite store_delete_present.
  2:{ apply has_task_true. rewrite fmap_app. apply elem_of_app.
      right. left. }
  simpl. rewrite Hreg, Hjob. simpl.
  eexists _, _. split; [done|]. simpl. split; [done|]. split; [|done].
  rewrite filter_app, (filter_others_absent _ _ Hrow). simpl.
  rewrite filter_cons, decide_False by (by intros []).
  simpl. apply app_nil_r.
Qed.
End Creation.

(** X6.  A request that decodes to a task with a fresh name, and whose
    registration the tick engine accepts, is served in full: the
    response is a success, the row is appended to the store, the dict
    maps the name to the job that scheduling returned, that job is
    with the tick engine under the unit and interval of the task, and
    the scheduler is running. *)
Theorem create_task_registers_fresh_task `{Collaborators} task_str task g :
  base64decode_obj task_str = Some task →
  has_task (name task) (DB_MANAGER g) = false →
  registers task = true →
  ∃ job g',
    create_task task_str g =
      (Ok (Response.mk 200
             ("Success. Task created and scheduled " +:+ name task +:+ ".")
             empty_data), g') ∧
    DB_MANAGER g' = DB_MANAGER g ++ [task] ∧
    SCHEDULED_JOBS g' = <[name task := job]> (SCHEDULED_JOBS g) ∧
    job ∈ jobs (schedule g') ∧
    job_task job = name task ∧
    job_unit job = repeat_time_unit task ∧
    job_interval job = repeat_interval task ∧
    SCHEDULER_RUNNING g' = true.
Proof. apply create_task_fresh. Qed.

Lemma create_task_registers_fresh_task_witness :
  ∃ job g',
    @create_task sample "B" serving_A =
      (Ok (Response.mk 200 "Success. Task created and scheduled B."
             empty_data), g') ∧
    DB_MANAGER g' = DB_MANAGER serving_A ++ [sample_task "B" scheduled] ∧
    SCHEDULED_JOBS g' = <["B" := job]> (SCHEDULED_JOBS serving_A) ∧
    job ∈ jobs (schedule g') ∧
    job_task job = "B" ∧
    job_unit job = hours ∧
    job_interval job = 24 ∧
    SCHEDULER_RUNNING g' = true.
Proof.
  apply (@create_task_registers_fresh_task sample "B"
           (sample_task "B" scheduled) serving_A); by vm_compute.
Defined.

(** X7.  A task that [create_task] has just stored can be read back:
    [read_task] with the default fields returns the ten fields of the
    task as it was decoded. *)
Theorem create_task_then_read_task `{Collaborators} task_str task g :
  base64decode_obj task_str = Some task →
  has_task (name task) (DB_MANAGER g) = false →
  registers task = true →
  outcome (read_task (name task) "") (state_after (create_task task_str) g)
  = Ok (Response.mk 200
          ("Success. Retrieved task " +:+ name task +:+ ".")
          (Some (DataRow (full_row task)))).
Proof.
  intros Hdec Hrow Hacc. unfold state_after.
  destruct (create_task_fresh _ _ g Hdec Hrow Hacc)
    as (job & g' & -> & Hdb & _).
  unfold outcome, read_task. run_monad. unfold store_read.
  by rewrite Hdb, (find_task_new_row _ _ Hrow).
Qed.

Lemma create_task_then_read_task_witness :
  outcome (read_task "B" "") (state_after (@create_task sample "B") serving_A)
  = Ok (Response.mk 200 "Success. Retrieved task B."
          (Some (DataRow (full_row (sample_task "B" scheduled))))).
Proof.
  apply (@create_task_then_read_task sample "B" (sample_task "B" scheduled)
           serving_A); by vm_compute.
Defined.

(** X8.  When the tick engine refuses the registration of a task that
    [create_task] has just stored, the handler takes the row out again:
    the response has status 400 and the store and the dict of scheduled
    jobs are what they were before the call. *)
Theorem create_task_rolls_back `{Collaborators} task_str task g :
  base64decode_obj task_str = Some task →
  has_task (name task) (DB_MANAGER g) = false →
  SCHEDULED_JOBS g !! name task = None →
  registers task = false →
  ∃ r g',
    create_task task_str g = (Ok r, g') ∧
    Response.status r = 400 ∧
    DB_MANAGER g' = DB_MANAGER g ∧
    SCHEDULED_JOBS g' = SCHEDULED_JOBS g.
Proof. apply create_task_refused. Qed.

Lemma create_task_rolls_back_witness :
  ∃ r g',
    @create_task strict "bad" serving_A = (Ok r, g') ∧
    Response.status r = 400 ∧
    DB_MANAGER g' = DB_MANAGER serving_A ∧
    SCHEDULED_JOBS g' = SCHEDULED_JOBS serving_A.
Proof.
  apply (@create_task_rolls_back strict "bad"
           (mkTask "bad" "load" "save" hours 0 None None 0 scheduled [])
           serving_A); by vm_compute.
Defined.

(** X9.  [delete_task] of a name that has a row and an entry in the
    dict succeeds with status 200: the job of the entry is cancelled,
    the row is removed, the entry is removed, and nothing else
    changes. *)
Theorem delete_task_registered n job g :
  has_task n (DB_MANAGER g) = true →
  SCHEDULED_JOBS g !! n = Some job →
  delete_task n g =
    (Ok (Response.mk 200 (deleted_message n) empty_data),
     with_jobs (delete n (SCHEDULED_JOBS g))
       (with_db (filter (λ task, ¬ named n task) (DB_MANAGER g))
          (with_schedule (cancel job (schedule g)) g))) ∧
  (∀ j, j ∈ jobs (cancel job (schedule g)) → job_id j ≠ job_id job).
Proof.
  intros Hrow Hjob. split; [|intros j; apply cancel_removes].
  unfold delete_task, delete_task_try. run_monad.
  rewrite (stop_task_entry_row _ _ _ Hjob Hrow). simpl.
  rewrite store_delete_present by (by rewrite has_task_stopped_rows).
  simpl. rewrite Hjob. simpl. by rewrite filter_others_stopped_rows.
Qed.

Lemma delete_task_registered_witness :
  delete_task "A" serving_A =
    (Ok (Response.mk 200 (deleted_message "A") empty_data),
     with_jobs (delete "A" (SCHEDULED_JOBS serving_A))
       (with_db (filter (λ task, ¬ named "A" task) (DB_MANAGER serving_A))
          (with_schedule
             (cancel (mkJob 0 "A" hours 24 "127.0.0.1" 8003)
                (schedule serving_A)) serving_A))) ∧
  (∀ j, j ∈ jobs (cancel (mkJob 0 "A" hours 24 "127.0.0.1" 8003)
                    (schedule serving_A)) →
        job_id j ≠ job_id (mkJob 0 "A" hours 24 "127.0.0.1" 8003)).
Proof.
  apply (delete_task_registered "A" (mkJob 0 "A" hours 24 "127.0.0.1" 8003)
           serving_A); by vm_compute.
Defined.

(** X10.  Deleting a task twice: after a [delete_task] of a name that
    had a row, a second [delete_task] of that name returns status 400
    and changes nothing. *)
Theorem delete_task_twice n g :
  has_task n (DB_MANAGER g) = true →
  delete_task n (state_after (delete_task n) g) =
    (Ok (Response.mk 400 (deleted_message n) empty_data),
     state_after (delete_task n) g).
Proof.
  intros Hrow. unfold state_after.
  destruct (delete_task_row n g Hrow) as (r & g' & -> & _ & Hgone & Hnone & _).
  simpl. by apply delete_task_nothing_left.
Qed.

Lemma delete_task_twice_witness :
  delete_task "A" (state_after (delete_task "A") serving_A) =
    (Ok (Response.mk 400 (deleted_message "A") empty_data),
     state_after (delete_task "A") serving_A).
Proof. apply (delete_task_twice "A" serving_A). reflexivity. Defined.

Lemma find_task_stopped_rows_other n m db :
  m ≠ n → find_task m (stopped_rows n db) = find_task m db.
Proof.
  intros Hne.
  assert (has_task n db = true ∨ has_task n db = false) as [Hrow|Hrow]
    by (destruct (has_task n db); auto).
  - apply (find_task_store_update n [new_status stopped] db); [|done].
    unfold store_update. by rewrite Hrow.
  - unfold stopped_rows. rewrite <- (list_fmap_id db) at 2.
    f_equal. apply list_fmap_ext. intros i task Hin.
    rewrite decide_False; [done|]. unfold named. intros Hn.
    apply has_task_false in Hrow. apply Hrow.
    apply list_elem_of_fmap. exists task. split; [done|].
    by eapply list_elem_of_lookup_2.
Qed.

(** X11.  [stop_task] never removes an entry from the dict of scheduled
    jobs and never changes the flag; the job that the entry of the name
    holds is no longer with the tick engine afterwards; and the rows of
    other names are as they were. *)
Theorem stop_task_keeps_entry_cancels_job n g :
  let g' := state_after (stop_task n) g in
  SCHEDULED_JOBS g' = SCHEDULED_JOBS g ∧
  SCHEDULER_RUNNING g' = SCHEDULER_RUNNING g ∧
  (∀ job j, SCHEDULED_JOBS g !! n = Some job →
            j ∈ jobs (schedule g') → job_id j ≠ job_id job) ∧
  (∀ m, m ≠ n → find_task m (DB_MANAGER g') = find_task m (DB_MANAGER g)).
Proof.
  simpl. unfold state_after.
  destruct (SCHEDULED_JOBS g !! n) as [job|] eqn:Hjob.
  - destruct (has_task n (DB_MANAGER g)) eqn:Hrow.
    + rewrite (stop_task_entry_row _ _ _ Hjob Hrow). simpl.
      repeat split; try done.
      * intros job' j [= <-]. apply cancel_removes.
      * intros m Hne. by apply find_task_stopped_rows_other.
    + rewrite (stop_task_entry_no_row _ _ _ Hjob Hrow). simpl.
      repeat split; try done.
      intros job' j [= <-]. apply cancel_removes.
  - rewrite (stop_task_no_entry _ _ Hjob). simpl. by repeat split.
Qed.

Lemma bind_ok {A B} (m : M A) (f : A → M B) g a g1 :
  m g = (Ok a, g1) → (m ≫= f) g = f a g1.
Proof. intros Hm. unfold mbind, M_bind. by rewrite Hm. Qed.

Lemma bind_raise {A B} (m : M A) (f : A → M B) g e g1 :
  m g = (Raise e, g1) → (m ≫= f) g = (Raise e, g1).
Proof. intros Hm. unfold mbind, M_bind. by rewrite Hm. Qed.

Section Starting.
Context `{Collaborators}.

Lemma ensure_running_when_running g :
  SCHEDULER_RUNNING g = true → ensure_running g = (Ok (), g).
Proof. intros Hrun. unfold ensure_running. run_monad. by rewrite Hrun. Qed.

Lemma start_loop_nothing_stopped n message (tasks : list ETLTask) g :
  existsb (λ task, bool_decide (status task = stopped)) tasks = false →
  foldlM (start_if_stopped n) message tasks g = (Ok message, g).
Proof.
  induction tasks as [|task tasks IH]; [done|]. simpl.
  intros [Hhead Htail]%orb_false_elim. apply bool_decide_eq_false in Hhead.
  erewrite bind_ok; [by apply IH|].
  unfold start_if_stopped. by rewrite decide_False.
Qed.

Lemma schedule_and_drop_accepted task g :
  registers task = true →
  (schedule_here task ;; mret ()) g =
    (Ok (), state_after (schedule_here task) g).
Proof.
  intros Hacc. unfold state_after.
  erewrite bind_ok by (by apply schedule_here_accepted).
  by rewrite schedule_here_accepted.
Qed.

Lemma schedule_and_drop_refused task g :
  registers task = false →
  (schedule_here task ;; mret ()) g = (Raise SchedulingError, g).
Proof.
  intros Hacc. by erewrite bind_raise by (by apply schedule_here_refused).
Qed.

(** Recovery over tasks that the tick engine accepts: every one of them
    gets a registration, and nothing else gains or loses one. *)
Lemma recovery_loop_accepted (tasks : list ETLTask) g :
  forallb registers tasks = true →
  ∃ g',
    for_each tasks (λ task, schedule_here task ;; mret ()) g = (Ok (), g') ∧
    engine_step g g' ∧
    ∀ m, registered m (schedule g') ↔
         registered m (schedule g) ∨ m ∈ name <$> tasks.
Proof.
  revert g. induction tasks as [|task tasks IH]; intros g; simpl.
  - intros _. exists g. split; [done|]. split; [reflexivity|].
    intros m. rewrite elem_of_nil. tauto.
  - intros [Hacc Hrest]%andb_prop.
    destruct (IH (state_after (schedule_here task) g) Hrest)
      as (g' & Hloop & Hstep' & Hreg').
    exists g'. split.
    { erewrite bind_ok; [exact Hloop|]. by apply schedule_and_drop_accepted. }
    split; [etrans; [apply schedule_here_step | done]|].
    intros m. rewrite Hreg', schedule_here_registered, elem_of_cons by done.
    tauto.
Qed.

(** Recovery that meets a task the tick engine refuses stops there. *)
Lemma recovery_loop_refused (before after : list ETLTask) bad g :
  forallb registers before = true →
  registers bad = false →
  ∃ g',
    for_each (before ++ bad :: after)
      (λ task, schedule_here task ;; mret ()) g
    = (Raise SchedulingError, g') ∧
    engine_step g g' ∧
    ∀ m, registered m (schedule g') ↔
         registered m (schedule g) ∨ m ∈ name <$> before.
Proof.
  revert g. induction before as [|task before IH]; intros g; simpl.
  - intros _ Hbad. exists g. split.
    { erewrite bind_raise; [done|]. by apply schedule_and_drop_refused. }
    split; [reflexivity|]. intros m. rewrite elem_of_nil. tauto.
  - intros [Hacc Hrest]%andb_prop Hbad.
    destruct (IH (state_after (schedule_here task) g) Hrest Hbad)
      as (g' & Hloop & Hstep' & Hreg').
    exists g'. split.
    { erewrite bind_ok; [exact Hloop|]. by apply schedule_and_drop_accepted. }
    split; [etrans; [apply schedule_here_step | done]|].
    intros m. rewrite Hreg', schedule_here_registered, elem_of_cons by done.
    tauto.
Qed.
End Starting.

(** X12.  [start_task] of a name that has no stopped row (an unknown
    name, or a task that is scheduled) on a running scheduler reports
    success with an empty message and changes nothing. *)
Theorem start_task_nothing_to_start `{Collaborators} n g :
  SCHEDULER_RUNNING g = true →
  has_stopped_task n (DB_MANAGER g) = false →
  start_task n g = (Ok (Response.mk 200 "" None), g).
Proof.
  intros Hrun Hnone. unfold start_task, try_except.
  erewrite bind_ok by (by apply ensure_running_when_running).
  unfold DB_load_tasks, gets. erewrite bind_ok by done.
  erewrite bind_ok by (by apply start_loop_nothing_stopped). done.
Qed.

Lemma start_task_nothing_to_start_witness :
  @start_task sample "Z" serving_A = (Ok (Response.mk 200 "" None), serving_A) ∧
  @start_task sample "A" serving_A = (Ok (Response.mk 200 "" None), serving_A).
Proof.
  split.
  - apply (@start_task_nothing_to_start sample "Z" serving_A); reflexivity.
  - apply (@start_task_nothing_to_start sample "A" serving_A); reflexivity.
Defined.

(** X13.  [start_scheduler] on a scheduler that is not running, when the
    tick engine accepts every scheduled task of the store: the response
    is a success, the flag is set, and the names registered with the
    tick engine are those that were registered before together with the
    names of the scheduled tasks; a stopped task gains no registration. *)
Theorem recovery_registers_scheduled_tasks `{Collaborators} g :
  SCHEDULER_RUNNING g = false →
  forallb registers (saved_tasks g) = true →
  ∃ g',
    start_scheduler g =
      (Ok (Response.mk 200 "Scheduler started." empty_data), g') ∧
    SCHEDULER_RUNNING g' = true ∧
    ∀ m, registered m (schedule g') ↔
         registered m (schedule g) ∨ m ∈ name <$> saved_tasks g.
Proof.
  intros Hrun Hacc.
  destruct (recovery_loop_accepted (saved_tasks g) (with_running true g) Hacc)
    as (g' & Hloop & (_ & _ & _ & Hflag & _) & Hreg).
  exists g'. split; [|by split].
  unfold start_scheduler, try_except, gets. erewrite bind_ok by done.
  rewrite Hrun. simpl.
  unfold modify. erewrite bind_ok by done.
  unfold schedule_saved_tasks, DB_load_tasks, gets.
  erewrite bind_ok; [done|]. erewrite bind_ok by done. exact Hloop.
Qed.

Lemma recovery_registers_scheduled_tasks_witness :
  ∃ g',
    @start_scheduler sample restarted =
      (Ok (Response.mk 200 "Scheduler started." empty_data), g') ∧
    SCHEDULER_RUNNING g' = true ∧
    ∀ m, registered m (schedule g') ↔
         registered m (schedule restarted) ∨ m ∈ name <$> saved_tasks restarted.
Proof.
  apply (@recovery_registers_scheduled_tasks sample restarted); reflexivity.
Defined.

(** X14.  [start_scheduler] on a scheduler that is not running, when the
    tick engine refuses one of the scheduled tasks: the response has
    status 400, yet the flag stays set; the scheduled tasks before the
    refused one are registered and recovery goes no further, so the
    tasks after it gain no registration. *)
Theorem recovery_stops_at_refused_task `{Collaborators} before bad after g :
  SCHEDULER_RUNNING g = false →
  saved_tasks g = before ++ bad :: after →
  forallb registers before = true →
  registers bad = false →
  ∃ r g',
    start_scheduler g = (Ok r, g') ∧
    Response.status r = 400 ∧
    SCHEDULER_RUNNING g' = true ∧
    ∀ m, registered m (schedule g') ↔
         registered m (schedule g) ∨ m ∈ name <$> before.
Proof.
  intros Hrun Hsaved Hacc Hbad.
  destruct (recovery_loop_refused before after bad (with_running true g)
              Hacc Hbad)
    as (g' & Hloop & (_ & _ & _ & Hflag & _) & Hreg).
  eexists _, g'. split; [|split; [|by split]].
  - unfold start_scheduler, try_except, gets. erewrite bind_ok by done.
    rewrite Hrun. simpl.
    unfold modify. erewrite bind_ok by done.
    erewrite bind_raise; [done|].
    unfold schedule_saved_tasks, DB_load_tasks, gets.
    erewrite bind_ok by done. simpl.
    change (store_load [by_status scheduled] (DB_MANAGER g))
      with (saved_tasks g).
    rewrite Hsaved. exact Hloop.
  - done.
Qed.

Lemma recovery_stops_at_refused_task_witness :
  ∃ r g',
    @start_scheduler strict restarted_bad = (Ok r, g') ∧
    Response.status r = 400 ∧
    SCHEDULER_RUNNING g' = true ∧
    ∀ m, registered m (schedule g') ↔
         registered m (schedule restarted_bad)
         ∨ m ∈ name <$> [sample_task "A" scheduled].
Proof.
  apply (@recovery_stops_at_refused_task strict
           [sample_task "A" scheduled]
           (mkTask "bad" "load" "save" hours 0 None None 0 scheduled [])
           [sample_task "C" scheduled] restarted_bad); reflexivity.
Defined.

(** X15.  [start_tasks] has no [try] statement of its own: when the tick
    engine refuses one of the scheduled tasks, the error leaves
    [start_tasks], whether the scheduler was running or not. *)
Theorem start_tasks_lets_the_error_out `{Collaborators} before bad after g :
  saved_tasks g = before ++ bad :: after →
  forallb registers before = true →
  registers bad = false →
  outcome start_tasks g = Raise SchedulingError.
Proof.
  intros Hsaved Hacc Hbad. unfold outcome, start_tasks.
  destruct (ensure_running_spec g) as (g1 & Hens & _ & Hdb & _).
  erewrite bind_ok by exact Hens.
  destruct (recovery_loop_refused before after bad g1 Hacc Hbad)
    as (g' & Hloop & _).
  unfold schedule_saved_tasks, DB_load_tasks, gets.
  erewrite bind_ok by done. simpl.
  rewrite Hdb. simpl.
  change (store_load [by_status scheduled] (DB_MANAGER g))
    with (saved_tasks g).
  by rewrite Hsaved, Hloop.
Qed.

Lemma start_tasks_lets_the_error_out_witness :
  outcome (@start_tasks strict) restarted_bad = Raise SchedulingError.
Proof.
  apply (@start_tasks_lets_the_error_out strict
           [sample_task "A" scheduled]
           (mkTask "bad" "load" "save" hours 0 None None 0 scheduled [])
           [sample_task "C" scheduled] restarted_bad); reflexivity.
Defined.

(** [delete_task] keeps the flag, and every entry it leaves in the dict
    was there before. *)
Lemma delete_task_flag_and_entries n g :
  SCHEDULER_RUNNING (state_after (delete_task n) g) = SCHEDULER_RUNNING g ∧
  ∀ m job, SCHEDULED_JOBS (state_after (delete_task n) g) !! m = Some job →
           SCHEDULED_JOBS g !! m = Some job.
Proof.
  unfold state_after, delete_task, delete_task_try.
  destruct (stop_task_spec n g) as (r & g1 & Hstop & _ & _ & Hreg & Hrun & _).
  run_monad. rewrite Hstop.
  destruct (store_delete n (DB_MANAGER g1)) as [db|e]; simpl.
  - destruct (SCHEDULED_JOBS g1 !! n) as [job|] eqn:Hjob; simpl.
    + split; [done|]. intros m job'. rewrite <- Hreg.
      destruct (decide (n = m)) as [->|Hne].
      * by rewrite lookup_delete_eq.
      * by rewrite lookup_delete_ne.
    + split; [done|]. intros m job'. by rewrite <- Hreg.
  - split; [done|]. intros m job'. by rewrite <- Hreg.
Qed.

Section Frames.
Context `{Collaborators}.

(** [create_task] leaves the flag set, and every entry of the dict
    afterwards was there before or files a new job under its own name. *)
Lemma create_task_flag_and_entries task_str g :
  SCHEDULER_RUNNING (state_after (create_task task_str) g) = true ∧
  ∀ m job,
    SCHEDULED_JOBS (state_after (create_task task_str) g) !! m = Some job →
    SCHEDULED_JOBS g !! m = Some job ∨ job_task job = m.
Proof.
  unfold state_after, create_task.
  destruct (ensure_running_spec g)
    as (g1 & Hens & Hrun & _ & _ & _ & _ & Hreg & _).
  simpl in Hreg. erewrite bind_ok by exact Hens.
  destruct (base64decode_obj task_str) as [task|]; simpl;
    [|split; [done|]; intros m job; rewrite Hreg; auto].
  unfold try_except, create_task_try.
  destruct (has_task (name task) (DB_MANAGER g1)) eqn:Hrow.
  { erewrite bind_raise
      by (unfold DB_create_task, on_store, store_create; by rewrite Hrow).
    destruct (delete_task_flag_and_entries (name task) g1) as [Hflag Hsub].
    unfold state_after in *. unfold mbind, M_bind.
    destruct (delete_task (name task) g1) as [[r|e] g2]; simpl in *;
      (split; [congruence|]); intros m job Hm; left; rewrite <- Hreg; auto. }
  set (g2 := with_db (DB_MANAGER g1 ++ [task]) g1).
  erewrite (bind_ok _ _ g1 () g2)
    by (unfold DB_create_task, on_store, store_create; by rewrite Hrow).
  destruct (registers task) eqn:Hacc.
  - erewrite bind_ok by (by apply schedule_here_accepted).
    unfold set_job, modify. erewrite bind_ok by done. simpl.
    split; [done|]. intros m job.
    destruct (decide (name task = m)) as [<-|Hne].
    + rewrite lookup_insert_eq. intros [= <-]. by right.
    + rewrite lookup_insert_ne by done. simpl. rewrite Hreg. auto.
  - erewrite bind_raise by (by apply schedule_here_refused).
    destruct (delete_task_flag_and_entries (name task) g2) as [Hflag Hsub].
    unfold state_after in *.
    unfold mbind, M_bind.
    destruct (delete_task (name task) g2) as [[r|e] g3]; simpl in *;
      (split; [congruence|]); intros m job Hm; left; rewrite <- Hreg;
      by apply Hsub.
Qed.

Lemma exec_keeps_job_names c g :
  entries_name_their_jobs g → entries_name_their_jobs (exec c g).
Proof.
  intros Hinv.
  assert (∀ g', SCHEDULED_JOBS g' = SCHEDULED_JOBS g →
                entries_name_their_jobs g') as Hsame.
  { intros g' Hreg m job. rewrite Hreg. apply Hinv. }
  destruct c; simpl.
  - intros m job Hm.
    destruct (create_task_flag_and_entries task_str g) as [_ Hsub].
    destruct (Hsub m job Hm) as [Hold|Hnew]; [by eapply Hinv | done].
  - intros m job Hm.
    destruct (delete_task_flag_and_entries task_name g) as [_ Hsub].
    eapply Hinv, Hsub, Hm.
  - apply Hsame. unfold state_after.
    by destruct (read_task_spec task_name fields g) as (r & ->).
  - apply Hsame. unfold state_after.
    by destruct (read_all_tasks_spec g) as (r & ->).
  - apply Hsame.
    by destruct (update_task_spec task_name new_values g)
      as (r & _ & _ & _ & _ & _ & Hreg & _).
  - apply Hsame. unfold state_after.
    by destruct (stop_task_spec task_name g) as (r & g' & -> & _ & _ & Hreg & _).
  - apply Hsame. unfold state_after.
    by destruct (start_task_spec task_name g)
      as (r & g' & -> & _ & _ & _ & _ & _ & Hreg & _).
  - apply Hsame. unfold state_after.
    by destruct (start_scheduler_spec g)
      as (r & g' & -> & _ & _ & _ & _ & _ & Hreg & _).
  - apply Hsame. unfold state_after, stop_scheduler. run_monad.
    by destruct (SCHEDULER_RUNNING g).
  - apply Hsame. unfold state_after, start_tasks.
    destruct (ensure_running_spec g)
      as (g1 & Hens & _ & _ & _ & _ & _ & Hreg & _).
    erewrite bind_ok by exact Hens.
    pose proof (schedule_saved_tasks_step g1) as (_ & _ & _ & _ & Hreg2 & _).
    unfold state_after in Hreg2. by rewrite Hreg2.
  - apply Hsame.
    by destruct (run_scheduler_step ticks g) as (_ & _ & _ & _ & _ & Hreg & _).
Qed.
End Frames.

(** X16.  Whatever the request and whatever the outcome, [create_task],
    [start_task], [start_tasks] and [start_scheduler] leave the
    scheduler running. *)
Theorem starting_endpoints_leave_scheduler_running `{Collaborators}
    task_str n g :
  SCHEDULER_RUNNING (state_after (create_task task_str) g) = true ∧
  SCHEDULER_RUNNING (state_after (start_task n) g) = true ∧
  SCHEDULER_RUNNING (state_after start_tasks g) = true ∧
  SCHEDULER_RUNNING (state_after start_scheduler g) = true.
Proof.
  split; [apply create_task_flag_and_entries|].
  unfold state_after. split; [|split].
  - by destruct (start_task_spec n g) as (r & g' & -> & Hrun & _).
  - unfold start_tasks.
    destruct (ensure_running_spec g) as (g1 & Hens & Hrun & _).
    erewrite bind_ok by exact Hens.
    pose proof (schedule_saved_tasks_step g1) as (_ & _ & _ & Hflag & _).
    unfold state_after in Hflag. by rewrite Hflag.
  - by destruct (start_scheduler_spec g) as (r & g' & -> & Hrun & _).
Qed.

(** X17.  In every state that a process reaches, each entry of the dict
    of scheduled jobs holds a job that was made for the task it is
    filed under. *)
Theorem reachable_entries_name_their_jobs `{Collaborators} g :
  reachable g → entries_name_their_jobs g.
Proof.
  induction 1 as [db host port|c g _ IH].
  - intros n job. simpl. by rewrite lookup_empty.
  - by apply exec_keeps_job_names.
Qed.

Lemma reachable_entries_name_their_jobs_witness :
  entries_name_their_jobs (@exec sample (call_stop_task "A") serving_A).
Proof.
  apply (@reachable_entries_name_their_jobs sample).
  apply reachable_call.
  change serving_A
    with (@exec sample (call_create_task "A") (boot [] "127.0.0.1" 8003)).
  apply reachable_call, reachable_boot.
Defined.



(** X19.  [update_task] that fails changes nothing: when its response
    has status 400 the globals are those before the call.  This is the
    case for a name that has no row. *)
Theorem update_task_failure_changes_nothing n new_values g r :
  outcome (update_task n new_values) g = Ok r →
  Response.status r = 400 →
  state_after (update_task n new_values) g = g.
Proof.
  unfold outcome, state_after, update_task. run_monad.
  destruct (store_update n new_values (DB_MANAGER g)) as [db|e]; simpl.
  - by intros [= <-].
  - done.
Qed.

Lemma update_task_failure_changes_nothing_witness :
  state_after (update_task "Z" [new_status stopped]) serving_A = serving_A.
Proof.
  apply (update_task_failure_changes_nothing "Z" [new_status stopped]
           serving_A
           (Response.mk 400
              "Failure. Could not update status of task Z due to NotFoundError."
              empty_data)); reflexivity.
Defined.

Section Restart.
Context `{Collaborators}.

Lemma start_loop_registers n (tasks : list ETLTask) message g :
  forallb registers tasks = true →
  (∀ task, task ∈ tasks → name task = n) →
  ∃ message' g',
    foldlM (start_if_stopped n) message tasks g = (Ok message', g') ∧
    (existsb (λ task, bool_decide (status task = stopped)) tasks = true →
     registered n (schedule g')).
Proof.
  revert message g. induction tasks as [|task tasks IH]; intros message g.
  - intros _ _. exists message, g. by split.
  - simpl. intros [Hacc Hrest]%andb_prop Hnames.
    assert (∀ t, t ∈ tasks → name t = n) as Hnames'
      by (intros t Ht; apply Hnames; by right).
    destruct (decide (status task = stopped)) as [Hst|Hst].
    + set (message1 := message +:+ "Started task '" +:+ n +:+ "'. ").
      set (g1 := state_after (schedule_here task) g).
      assert (start_if_stopped n message task g = (Ok message1, g1)) as Hhead.
      { unfold start_if_stopped. rewrite decide_True by done.
        erewrite bind_ok by (by apply schedule_here_accepted).
        unfold g1, state_after. by rewrite schedule_here_accepted. }
      erewrite bind_ok by exact Hhead.
      destruct (IH message1 g1 Hrest Hnames') as (message' & g' & Hloop & _).
      exists message', g'. split; [done|]. intros _.
      pose proof (foldlM_steps engine_step (start_if_stopped n) tasks
                    (start_if_stopped_step n) message1 g1) as Hstep.
      unfold state_after in Hstep. rewrite Hloop in Hstep.
      destruct Hstep as (_ & _ & _ & _ & _ & Hkeep). apply Hkeep.
      apply schedule_here_registered; [done|]. right.
      symmetry. apply Hnames. left.
    + assert (start_if_stopped n message task g = (Ok message, g)) as Hhead
        by (unfold start_if_stopped; by rewrite decide_False).
      erewrite bind_ok by exact Hhead.
      destruct (IH message g Hrest Hnames') as (message' & g' & Hloop & Hreg).
      exists message', g'. split; [done|].
      rewrite bool_decide_eq_false_2 by done. simpl. exact Hreg.
Qed.
End Restart.

(** X20.  [start_task] of a name that has a stopped row, on a running
    scheduler whose tick engine accepts the task: the response has
    status 200 and the name has a registration with the tick engine
    afterwards. *)
Theorem start_task_registers_stopped_task `{Collaborators} n g :
  SCHEDULER_RUNNING g = true →
  has_stopped_task n (DB_MANAGER g) = true →
  forallb registers (store_load [by_name n] (DB_MANAGER g)) = true →
  ∃ r g',
    start_task n g = (Ok r, g') ∧
    Response.status r = 200 ∧
    registered n (schedule g').
Proof.
  intros Hrun Hstopped Hacc.
  destruct (start_loop_registers n (store_load [by_name n] (DB_MANAGER g))
              "" g Hacc) as (message & g' & Hloop & Hreg).
  { intros task. unfold store_load. rewrite list_elem_of_filter.
    simpl. intros [Hmatch _]. rewrite andb_true_r in Hmatch.
    by apply bool_decide_eq_true in Hmatch. }
  exists (Response.mk 200 message None), g'. split; [|split; [done|]].
  - unfold start_task, try_except.
    erewrite bind_ok by (by apply ensure_running_when_running).
    unfold DB_load_tasks, gets. erewrite bind_ok by done.
    by erewrite bind_ok by exact Hloop.
  - by apply Hreg.
Qed.

Lemma start_task_registers_stopped_task_witness :
  ∃ r g',
    @start_task sample "A" (state_after (stop_task "A") serving_A) = (Ok r, g') ∧
    Response.status r = 200 ∧
    registered "A" (schedule g').
Proof.
  apply (@start_task_registers_stopped_task sample "A"
           (state_after (stop_task "A") serving_A)); reflexivity.
Defined.

(** X21.  The field list of [read_task] is cut at every single space:
    the pieces joined by single spaces give the string back, there is at
    least one piece, and no piece holds a space. *)
Theorem split_spaces_round_trip s :
  join_spaces (split_spaces s) = s ∧
  split_spaces s ≠ [] ∧
  Forall (λ piece, has_space piece = false) (split_spaces s).
Proof.
  induction s as [|c s (Hjoin & Hne & Hall)]; [by repeat constructor|].
  simpl. destruct (Ascii.eqb c " ") eqn:Hc.
  - apply Ascii.eqb_eq in Hc as ->. split; [|split; [done|]].
    + destruct (split_spaces s) as [|piece pieces]; [done|].
      simpl in *. by rewrite Hjoin.
    + by constructor.
  - destruct (split_spaces s) as [|piece pieces]; [done|].
    split; [|split; [done|]].
    + destruct pieces; simpl in *; by rewrite <- Hjoin.
    + inversion Hall; subst. constructor; [|done]. simpl. by rewrite Hc.
Qed.

Lemma project_names task fields row :
  project task fields = Ok row → row.*1 = fields.
Proof.
  revert row. induction fields as [|f fields IH]; intros row; simpl.
  - by intros [= <-].
  - destruct (task_field task f) as [v|]; [|done].
    destruct (project task fields) as [row'|e]; [|done].
    intros [= <-]. simpl. f_equal. by apply IH.
Qed.

(** X22.  A successful [read_task] returns exactly the fields that were
    asked for, in the order of the request: the ten fields for the
    default [fields = ''], else the pieces of [fields] between single
    spaces. *)
Theorem read_task_returns_requested_fields n fields g r :
  outcome (read_task n fields) g = Ok r →
  Response.status r = 200 →
  ∃ row,
    Response.data r = Some (DataRow row) ∧
    row.*1 = if decide (fields = "") then all_fields else split_spaces fields.
Proof.
  unfold outcome, read_task. run_monad. unfold store_read.
  destruct (find_task n (DB_MANAGER g)) as [task|]; simpl; [|by intros [= <-]].
  destruct (project task _) as [row|e] eqn:Hrow; simpl;
    [|by intros [= <-]].
  intros [= <-] _. exists row. split; [done|]. by eapply project_names.
Qed.

Lemma read_task_returns_requested_fields_witness :
  ∃ row,
    Response.data
      (Response.mk 200 "Success. Retrieved task A."
         (Some (DataRow [("status", VStr "scheduled"); ("num_runs", VInt 0)])))
    = Some (DataRow row) ∧
    row.*1 = if decide ("status num_runs" = "") then all_fields
             else split_spaces "status num_runs".
Proof.
  apply (read_task_returns_requested_fields "A" "status num_runs" serving_A);
    reflexivity.
Defined.
